(** * ServeFolder: per-window static preview servers

    A shallow embedding of [newIDE/electron-app/app/ServeFolder.js]: the
    registry [serversByWindow], the three exported operations
    [serveFolder], [stopServer] and [stopAllServers], and the
    [requestHandler] closure every started server runs.

    JavaScript strings are modelled as [string] (a sequence of bytes
    holding the UTF-8 form of the text), the [Map] as a [gmap], server
    objects as cells of a heap indexed by allocation order, and
    exceptions, callbacks and events explicitly. *)

From Stdlib Require Import ZArith Lia Ascii String List Bool.
From stdpp Require Import base option strings gmap list fin_maps.

Local Open Scope string_scope.
Local Open Scope Z_scope.

(** ** Errors and completions *)

(** The error values that reach this module. *)
Inductive jsError : Type :=
  | URIError                       (* decodeURIComponent: malformed escape *)
  | TypeError (msg : string)       (* argument validation of a built-in *)
  | NoPortAvailable                (* getAvailablePort rejected *)
  | SystemError (code : string)    (* EADDRINUSE, EACCES, ENOENT, EISDIR, ... *)
  | ERR_SERVER_NOT_RUNNING         (* close() of a server that is not open *)
  | OtherError (msg : string).

(** How a piece of JavaScript ends: normally with a value, or by a throw. *)
Inductive completion (A : Type) : Type :=
  | Normal (a : A)
  | Throw (e : jsError).
Arguments Normal {A} a.
Arguments Throw {A} e.

(** State and exception monad: the state survives a throw, as mutations
    made before a [throw] do in JavaScript. *)
Definition js (S A : Type) : Type := S -> completion A * S.

Definition ret {S A} (a : A) : js S A := fun s => (Normal a, s).
Definition throw {S A} (e : jsError) : js S A := fun s => (Throw e, s).
Definition bind {S A B} (m : js S A) (k : A -> js S B) : js S B :=
  fun s => match m s with
           | (Normal a, s') => k a s'
           | (Throw e, s') => (Throw e, s')
           end.
Definition get {S} : js S S := fun s => (Normal s, s).
Definition modify {S} (f : S -> S) : js S unit := fun s => (Normal tt, f s).
(** [try { m } catch (e) { h e }] *)
Definition try_catch {S A} (m : js S A) (h : jsError -> js S A) : js S A :=
  fun s => match m s with
           | (Normal a, s') => (Normal a, s')
           | (Throw e, s') => h e s'
           end.
(** Lifting of a pure built-in that may throw. *)
Definition lift {S A} (c : completion A) : js S A := fun s => (c, s).

#[global] Instance js_ret {S} : MRet (js S) := fun A => @ret S A.
#[global] Instance js_bind {S} : MBind (js S) := fun A B k m => @bind S A B m k.

(** ** Strings *)

Module JsString.

(** [s.endsWith(c)] for a one-character [c]. *)
Fixpoint endsWith (s : string) (c : ascii) : bool :=
  match s with
  | EmptyString => false
  | String a EmptyString => Ascii.eqb a c
  | String _ rest => endsWith rest c
  end.

Fixpoint contains (s : string) (c : ascii) : bool :=
  match s with
  | EmptyString => false
  | String a rest => Ascii.eqb a c || contains rest c
  end.

Definition lower_ascii (a : ascii) : ascii :=
  let n := N_of_ascii a in
  if ((65 <=? n) && (n <=? 90))%N then ascii_of_N (n + 32) else a.

(** Header names are compared case-insensitively: Node stores them
    under their lower-case form. *)
Fixpoint toLowerCase (s : string) : string :=
  match s with
  | EmptyString => EmptyString
  | String a rest => String (lower_ascii a) (toLowerCase rest)
  end.

Definition is_upper (a : ascii) : bool :=
  let n := N_of_ascii a in ((65 <=? n) && (n <=? 90))%N.

(** Split at every occurrence of [sep]; the result is never empty. *)
Fixpoint split (sep : ascii) (s : string) : list string :=
  match s with
  | EmptyString => [EmptyString]
  | String a rest =>
      if Ascii.eqb a sep then EmptyString :: split sep rest
      else match split sep rest with
           | seg :: segs => String a seg :: segs
           | [] => [String a EmptyString]
           end
  end.

Fixpoint join (sep : string) (l : list string) : string :=
  match l with
  | [] => EmptyString
  | [x] => x
  | x :: rest => x ++ sep ++ join sep rest
  end.

End JsString.

(** ** [decodeURIComponent] (ECMA-262, 19.2.6.1 Decode with an empty
    reserved set) *)

Module Uri.

Definition hex_digit (a : ascii) : option N :=
  let n := N_of_ascii a in
  if ((48 <=? n) && (n <=? 57))%N then Some (n - 48)%N
  else if ((65 <=? n) && (n <=? 70))%N then Some (n - 55)%N
  else if ((97 <=? n) && (n <=? 102))%N then Some (n - 87)%N
  else None.

(** One position of the input: a literal character, or an escape
    [%XY] read as the octet it denotes. *)
Inductive token : Type :=
  | Lit (a : ascii)
  | Pct (b : N).

(** A [%] must be followed by two hexadecimal digits. *)
Fixpoint tokens (s : string) : option (list token) :=
  match s with
  | EmptyString => Some []
  | String "%" (String h (String l rest)) =>
      match hex_digit h, hex_digit l, tokens rest with
      | Some x, Some y, Some ts => Some (Pct (16 * x + y)%N :: ts)
      | _, _, _ => None
      end
  | String "%" _ => None
  | String a rest =>
      match tokens rest with
      | Some ts => Some (Lit a :: ts)
      | None => None
      end
  end.

Definition in_range (lo b hi : N) : bool := ((lo <=? b) && (b <=? hi))%N.
Definition cont (b : N) : bool := in_range 128 b 191.

(** Well-formed two-, three- and four-octet UTF-8 sequences (Unicode,
    table 3-7): no overlong forms, no surrogates, nothing above
    U+10FFFF. *)
Definition utf8_2 (b0 b1 : N) : bool := in_range 194 b0 223 && cont b1.
Definition utf8_3 (b0 b1 b2 : N) : bool :=
  ((b0 =? 224)%N && in_range 160 b1 191 && cont b2)
  || (in_range 225 b0 236 && cont b1 && cont b2)
  || ((b0 =? 237)%N && in_range 128 b1 159 && cont b2)
  || (in_range 238 b0 239 && cont b1 && cont b2).
Definition utf8_4 (b0 b1 b2 b3 : N) : bool :=
  ((b0 =? 240)%N && in_range 144 b1 191 && cont b2 && cont b3)
  || (in_range 241 b0 243 && cont b1 && cont b2 && cont b3)
  || ((b0 =? 244)%N && in_range 128 b1 143 && cont b2 && cont b3).

Definition chr (b : N) : ascii := ascii_of_N b.

(** Octets below 0x80 stand alone; a leading octet announces how many
    continuation escapes must follow it immediately. *)
Fixpoint decode (ts : list token) : option string :=
  match ts with
  | [] => Some EmptyString
  | Lit a :: rest => String a <$> decode rest
  | Pct b0 :: rest =>
      if (b0 <? 128)%N then String (chr b0) <$> decode rest
      else if in_range 192 b0 223 then
        match rest with
        | Pct b1 :: rest' =>
            if utf8_2 b0 b1
            then (fun s => String (chr b0) (String (chr b1) s)) <$> decode rest'
            else None
        | _ => None
        end
      else if in_range 224 b0 239 then
        match rest with
        | Pct b1 :: Pct b2 :: rest' =>
            if utf8_3 b0 b1 b2
            then (fun s => String (chr b0) (String (chr b1) (String (chr b2) s)))
                   <$> decode rest'
            else None
        | _ => None
        end
      else if in_range 240 b0 247 then
        match rest with
        | Pct b1 :: Pct b2 :: Pct b3 :: rest' =>
            if utf8_4 b0 b1 b2 b3
            then (fun s => String (chr b0) (String (chr b1)
                             (String (chr b2) (String (chr b3) s))))
                   <$> decode rest'
            else None
        | _ => None
        end
      else None
  end.

Definition decodeURIComponent (s : string) : completion string :=
  match tokens s with
  | Some ts =>
      match decode ts with
      | Some r => Normal r
      | None => Throw URIError
      end
  | None => Throw URIError
  end.

End Uri.

(** ** The [path] module (POSIX flavour) *)

Module Path.
Import JsString.

(** [normalizeString]: resolve [.] and [..] segments and drop empty
    ones. [acc] is the stack of kept segments, last one first. *)
Fixpoint normalizeSegments (allowAboveRoot : bool) (acc : list string)
    (segs : list string) : list string :=
  match segs with
  | [] => rev acc
  | seg :: rest =>
      if String.eqb seg "" || String.eqb seg "." then
        normalizeSegments allowAboveRoot acc rest
      else if String.eqb seg ".." then
        match acc with
        | top :: acc' =>
            if String.eqb top ".." then
              normalizeSegments allowAboveRoot
                (if allowAboveRoot then ".." :: acc else acc) rest
            else normalizeSegments allowAboveRoot acc' rest
        | [] =>
            normalizeSegments allowAboveRoot
              (if allowAboveRoot then [".."] else []) rest
        end
      else normalizeSegments allowAboveRoot (seg :: acc) rest
  end.

Definition isAbsolute (path : string) : bool :=
  match path with
  | String "/" _ => true
  | _ => false
  end.

Definition normalize (path : string) : string :=
  if String.eqb path "" then "."
  else
    let absolute := isAbsolute path in
    let trailingSeparator := endsWith path "/" in
    let p := join "/" (normalizeSegments (negb absolute) [] (split "/" path)) in
    if String.eqb p "" then
      if absolute then "/" else if trailingSeparator then "./" else "."
    else
      let p := if trailingSeparator then p ++ "/" else p in
      if absolute then "/" ++ p else p.

(** [path.join(...args)]: the non-empty arguments, separated by [/],
    then normalized. *)
Definition join (args : list string) : string :=
  match List.filter (fun a => negb (String.eqb a "")) args with
  | [] => "."
  | parts => normalize (JsString.join "/" parts)
  end.

(** The loop variables of [path.extname]. *)
Record extState : Type := {
  startDot : Z;
  startPart : Z;
  endIdx : Z;
  matchedSlash : bool;
  preDotState : Z
}.

(** The body of [for (let i = path.length - 1; i >= 0; --i)], run for
    [i = n - 1] down to [0]; a [break] ends the recursion. *)
Fixpoint extnameLoop (path : string) (n : nat) (st : extState) : extState :=
  match n with
  | O => st
  | S i =>
      match String.get i path with
      | None => st
      | Some code =>
          if Ascii.eqb code "/" then
            if negb (matchedSlash st) then
              {| startDot := startDot st; startPart := Z.of_nat i + 1;
                 endIdx := endIdx st; matchedSlash := matchedSlash st;
                 preDotState := preDotState st |}
            else extnameLoop path i st
          else
            let '(ms, e) :=
              if endIdx st =? -1 then (false, Z.of_nat i + 1)
              else (matchedSlash st, endIdx st) in
            let '(sd, pds) :=
              if Ascii.eqb code "." then
                if startDot st =? -1 then (Z.of_nat i, preDotState st)
                else if negb (preDotState st =? 1) then (startDot st, 1)
                else (startDot st, preDotState st)
              else if negb (startDot st =? -1) then (startDot st, -1)
              else (startDot st, preDotState st) in
            extnameLoop path i
              {| startDot := sd; startPart := startPart st; endIdx := e;
                 matchedSlash := ms; preDotState := pds |}
      end
  end.

Definition extname (path : string) : string :=
  let st := extnameLoop path (String.length path)
              {| startDot := -1; startPart := 0; endIdx := -1;
                 matchedSlash := true; preDotState := 0 |} in
  if (startDot st =? -1) || (endIdx st =? -1) || (preDotState st =? 0)
     || ((preDotState st =? 1) && (startDot st =? endIdx st - 1)
         && (startDot st =? startPart st + 1))
  then ""
  else substring (Z.to_nat (startDot st))
                 (Z.to_nat (endIdx st - startDot st)) path.

End Path.

(** ** HTTP messages *)

Record incomingMessage : Type := {
  url : string;          (* the request target, as received *)
  method : string        (* never read by the handler *)
}.

(** [http.ServerResponse], as far as the handler drives it. Header names
    are kept in lower case, as Node does. *)
Record serverResponse : Type := {
  headers : gmap string string;
  statusCode : Z;
  headersSent : bool;
  body : string;
  finished : bool
}.

Definition newResponse : serverResponse :=
  {| headers := ∅; statusCode := 200; headersSent := false;
     body := ""; finished := false |}.

Definition setHeader (name value : string) : js serverResponse unit :=
  fun res =>
    if headersSent res then (Throw (OtherError "ERR_HTTP_HEADERS_SENT"), res)
    else (Normal tt,
          {| headers := <[JsString.toLowerCase name := value]> (headers res);
             statusCode := statusCode res; headersSent := headersSent res;
             body := body res; finished := finished res |}).

(** [res.writeHead(status, hdrs)]: the given headers are merged over the
    ones set earlier with [setHeader]. *)
Definition writeHead (status : Z) (hdrs : list (string * string))
    : js serverResponse unit :=
  fun res =>
    if headersSent res then (Throw (OtherError "ERR_HTTP_HEADERS_SENT"), res)
    else (Normal tt,
          {| headers := foldl (fun h kv => <[JsString.toLowerCase kv.1 := kv.2]> h)
                              (headers res) hdrs;
             statusCode := status; headersSent := true;
             body := body res; finished := finished res |}).

(** [res.end(data)] *)
Definition end_ (data : string) : js serverResponse unit :=
  fun res =>
    if finished res then (Normal tt, res)
    else (Normal tt,
          {| headers := headers res; statusCode := statusCode res;
             headersSent := true; body := data; finished := true |}).

(** What [url.parse] returns, as far as it is read: [pathname] is [null]
    when the target has no path. *)
Record urlObject : Type := { pathname : option string }.

(** [decodeURIComponent] converts its argument to a string first. *)
Definition toString (v : option string) : string :=
  match v with
  | Some s => s
  | None => "null"
  end.

(** [url.parse] on an origin-form request target ([/path?query]) whose
    path holds only characters the parser leaves alone (letters, digits,
    [/], [.], [-], [_], [%]): the path is what precedes the first [?] or
    [#], dot segments included. Properties that hold for every parser
    take the parser as a parameter; this one serves the concrete
    requests. *)
Fixpoint pathOf (s : string) : string :=
  match s with
  | EmptyString => EmptyString
  | String a rest =>
      if Ascii.eqb a "?" || Ascii.eqb a "#" then EmptyString
      else String a (pathOf rest)
  end.

Definition url_parse_origin_form (target : string) : completion urlObject :=
  let p := pathOf target in
  Normal {| pathname := if String.eqb p "" then None else Some p |}.

(** [fs.readFile] validates its path argument before it starts the read:
    a path with a NUL character is refused with a synchronous throw. *)
Definition fs_validatePath {S} (path : string) : js S unit :=
  if JsString.contains path "000"
  then throw (TypeError "ERR_INVALID_ARG_VALUE")
  else mret tt.

(** The file system, as the handler sees it: reading a path either fails
    with some error or yields the file's bytes. *)
Definition fileSystem : Type := string -> jsError + string.

(** ** The request handler *)

Definition contentTypes : list (string * string) :=
  [ (".html", "text/html");
    (".js", "text/javascript");
    (".css", "text/css");
    (".json", "application/json");
    (".png", "image/png");
    (".jpg", "image/jpg");
    (".gif", "image/gif");
    (".svg", "image/svg+xml");
    (".wav", "audio/wav");
    (".mp3", "audio/mpeg");
    (".mp4", "video/mp4");
    (".woff", "font/woff");
    (".woff2", "font/woff2");
    (".ttf", "font/ttf") ].

(** [obj[key]] on an object literal with the given own properties. *)
Fixpoint property (obj : list (string * string)) (key : string) : option string :=
  match obj with
  | [] => None
  | (k, v) :: rest => if String.eqb k key then Some v else property rest key
  end.

(** [v || fallback]: [undefined] and the empty string are falsy. *)
Definition orElse (v : option string) (fallback : string) : string :=
  match v with
  | Some s => if String.eqb s "" then fallback else s
  | None => fallback
  end.

Section RequestHandler.

(** The parser behind [url.parse], and the [root] the closure captured
    when its server was created. *)
Variable url_parse : string -> completion urlObject.
Variable root : string.

(** The handler up to its call of [fs.readFile]: the result is the
    path whose read it has requested. *)
Definition requestHandler (req : incomingMessage) : js serverResponse string :=
  setHeader "Surrogate-Control" "no-store";;
  setHeader "Cache-Control"
            "no-store, no-cache, must-revalidate, proxy-revalidate";;
  setHeader "Expires" "0";;
  parsedUrl ← lift (url_parse (url req));
  pathname ← lift (Uri.decodeURIComponent (toString (pathname parsedUrl)));
  let pathname :=
    if JsString.endsWith pathname "/" then pathname ++ "index.html"
    else pathname in
  let filePath := Path.join [root; pathname] in
  fs_validatePath filePath;;
  mret filePath.

(** The callback given to [fs.readFile]. *)
Definition readFileCallback (filePath : string) (result : jsError + string)
    : js serverResponse unit :=
  match result with
  | inl err =>
      writeHead 404 [];;
      end_ "Not Found"
  | inr data =>
      let ext := Path.extname filePath in
      writeHead 200
        [("Content-Type",
          orElse (property contentTypes ext) "application/octet-stream")];;
      end_ data
  end.

(** One request from arrival to the end of its callback, on a fresh
    response object. *)
Definition handleRequest (fs : fileSystem) (req : incomingMessage)
    : completion unit * serverResponse :=
  match requestHandler req newResponse with
  | (Normal filePath, res) => readFileCallback filePath (fs filePath) res
  | (Throw e, res) => (Throw e, res)
  end.

End RequestHandler.

(** ** Servers and the registry *)

(** Window identifiers are the integer ids of the application's windows;
    a server object is named by its position in the heap. *)
Definition windowId : Type := Z.
Definition serverId : Type := nat.

(** The TLS material of [Utils/DevServerHttpsConfiguration.js]. *)
Record httpsConfig : Type := { cert : string; key : string }.

(** The object [serverParams]. Its [middleware] field holds the function
    [noCache], which nothing in the module calls: the request handler
    sets the same three headers itself. The field is left out. *)
Record ServerParams : Type := {
  port : Z;
  root : string;
  open : bool;
  wait : Z;
  https : option httpsConfig;
  watch : list string
}.

(** A server object made by [http.createServer]. [servedRoot] is the
    [root] its request handler closed over; [owner] records the window
    whose [serveFolder] call created it. *)
Record HttpServer : Type := {
  listening : bool;
  boundPort : option Z;
  servedRoot : string;
  secure : bool;
  owner : windowId
}.

(** A value of the map: [{ serverParams, httpServer }], the server held
    by reference. *)
Record ServerRecord : Type := {
  serverParams : ServerParams;
  httpServer : serverId
}.

(** Calls into the platform, in the order they are made. *)
Inductive event : Type :=
  | ConsoleWarn (e : jsError)
  | GetAvailablePort (lo hi : Z)
  | CreateServer (s : serverId) (tls : bool)
  | Listen (s : serverId) (p : Z)
  | Close (s : serverId)
  | CloseAllConnections (s : serverId).

Record world : Type := {
  serversByWindow : gmap Z ServerRecord;
  heap : list HttpServer;
  trace : list event
}.

Definition emptyWorld : world :=
  {| serversByWindow := ∅; heap := []; trace := [] |}.

Definition setRegistry (f : gmap Z ServerRecord -> gmap Z ServerRecord)
    (w : world) : world :=
  {| serversByWindow := f (serversByWindow w); heap := heap w; trace := trace w |}.

Definition setHeap (f : list HttpServer -> list HttpServer) (w : world) : world :=
  {| serversByWindow := serversByWindow w; heap := f (heap w); trace := trace w |}.

Definition emit (ev : event) : js world unit :=
  modify (fun w => {| serversByWindow := serversByWindow w; heap := heap w;
                      trace := (trace w ++ [ev])%list |}).

Definition setListening (b : bool) (p : option Z) (s : HttpServer) : HttpServer :=
  {| listening := b; boundPort := p; servedRoot := servedRoot s;
     secure := secure s; owner := owner s |}.

(** [server.listening]; a dangling reference reads as not listening. *)
Definition isListening (w : world) (s : serverId) : bool :=
  match heap w !! s with
  | Some srv => listening srv
  | None => false
  end.

(** What the platform may do that the module does not decide: whether a
    call of [close] or [closeAllConnections] on a given server throws,
    and whether [closeAllConnections] exists at all (Node 18.2+). *)
Record runtime : Type := {
  close_throws : serverId -> option jsError;
  closeAllConnections_throws : serverId -> option jsError;
  has_closeAllConnections : bool
}.

(** How the callback [onDone] was invoked: [onDone(err)],
    [onDone(null, serverParams)] or [onDone()]. *)
Inductive done : Type :=
  | OnDone (err : option jsError) (params : option ServerParams).

(** What [serveFolder] leaves behind when it returns. *)
Inductive servePending : Type :=
  | Settled (d : done)     (* [onDone] already called *)
  | AwaitPort.             (* waiting for [getAvailablePort] *)

(** What [stopServer] leaves behind when it returns. *)
Inductive stopPending : Type :=
  | Stopped (d : done)
  | AwaitClose (s : serverId).

(** The argument object of [serveFolder]. *)
Record serveArgs : Type := {
  arg_root : string;
  arg_useHttps : bool;
  arg_windowId : windowId
}.

(** The answers of the platform to one [serveFolder] call: how the
    promise of [getAvailablePort] settles, whether [createServer] throws
    (unusable TLS material), and whether the bind ends with the
    [listening] event ([None]) or with an [error] event. *)
Record serveEnv : Type := {
  portResult : jsError + Z;
  createThrows : option jsError;
  listenResult : option jsError
}.

Fixpoint forEach {S A} (l : list A) (f : A -> js S unit) : js S unit :=
  match l with
  | [] => mret tt
  | x :: rest => f x;; forEach rest f
  end.

Section Server.

Variable rt : runtime.
Variable httpsConfiguration : httpsConfig.

(** [server.close()]: the server stops listening at once. *)
Definition httpServer_close (s : serverId) : js world unit :=
  emit (Close s);;
  match close_throws rt s with
  | Some e => throw e
  | None => modify (setHeap (alter (setListening false None) s))
  end.

Definition httpServer_closeAllConnections (s : serverId) : js world unit :=
  emit (CloseAllConnections s);;
  match closeAllConnections_throws rt s with
  | Some e => throw e
  | None => mret tt
  end.

(** [http.createServer(requestHandler)] or
    [https.createServer(options, requestHandler)]. *)
Definition createServer (fails : option jsError) (tls : bool)
    (root : string) (windowId : windowId) : js world serverId :=
  w ← get;
  let s := length (heap w) in
  emit (CreateServer s tls);;
  match fails with
  | Some e => throw e
  | None =>
      modify (setHeap (fun h => (h ++ [ {| listening := false; boundPort := None;
                                           servedRoot := root; secure := tls;
                                           owner := windowId |} ])%list));;
      mret s
  end.

(** [serveFolder] up to its return: the fast path, or the old server
    closed and a port requested. *)
Definition serveFolder (a : serveArgs) : js world servePending :=
  w ← get;
  let existingServer := serversByWindow w !! arg_windowId a in
  match existingServer with
  | Some ex =>
      if String.eqb (root (serverParams ex)) (arg_root a) then
        mret (Settled (OnDone None (Some (serverParams ex))))
      else
        try_catch (httpServer_close (httpServer ex))
                  (fun e => emit (ConsoleWarn e));;
        emit (GetAvailablePort 2929 4000);;
        mret AwaitPort
  | None =>
      emit (GetAvailablePort 2929 4000);;
      mret AwaitPort
  end.

(** The callback of [httpServer.listen]. *)
Definition listenCallback (a : serveArgs) (params : ServerParams)
    (s : serverId) (err : option jsError) : js world done :=
  match err with
  | Some e => mret (OnDone (Some e) None)
  | None =>
      modify (setRegistry
                <[arg_windowId a := {| serverParams := params; httpServer := s |}]>);;
      mret (OnDone None (Some params))
  end.

(** The fulfilment handler of the port promise, up to its call of
    [listen]. *)
Definition onPort (fails : option jsError) (a : serveArgs) (port : Z)
    : js world (ServerParams * serverId) :=
  let serverParams :=
    {| port := port; root := arg_root a; open := false; wait := 1000;
       https := if arg_useHttps a then Some httpsConfiguration else None;
       watch := [] |} in
  s ← createServer fails (bool_decide (is_Some (https serverParams)))
                   (arg_root a) (arg_windowId a);
  emit (Listen s port);;
  mret (serverParams, s).

(** [httpServer.listen(port, cb)]: [cb] is registered for the
    [listening] event, which carries no argument. A failed bind is
    reported by an [error] event instead; the module registers no
    handler for it, so the error is thrown from the event loop and
    [cb] never runs. *)
Definition httpServer_listen (outcome : option jsError) (s : serverId)
    (port : Z) (cb : option jsError -> js world done) : js world done :=
  match outcome with
  | None =>
      modify (setHeap (alter (setListening true (Some port)) s));;
      cb None
  | Some e => throw e
  end.

(** The rejection handler of the port promise. *)
Definition onPortRejected (err : jsError) : js world done :=
  mret (OnDone (Some err) None).

(** One [serveFolder] call from entry to the end of its last callback,
    nothing else running in between. A [Throw] is an error no handler
    of the module received: an unhandled rejection (thrown inside the
    fulfilment handler) or an unhandled [error] event. *)
Definition serveFolderRun (env : serveEnv) (a : serveArgs) : js world done :=
  p ← serveFolder a;
  match p with
  | Settled d => mret d
  | AwaitPort =>
      match portResult env with
      | inl err => onPortRejected err
      | inr port =>
          '(params, s) ← onPort (createThrows env) a port;
          httpServer_listen (listenResult env) s port (listenCallback a params s)
      end
  end.

(** [stopServer] up to its return. *)
Definition stopServer (windowId : windowId) : js world stopPending :=
  w ← get;
  match serversByWindow w !! windowId with
  | Some server =>
      httpServer_close (httpServer server);;
      mret (AwaitClose (httpServer server))
  | None =>
      modify (setRegistry (delete windowId));;
      mret (Stopped (OnDone None None))
  end.

(** The callback given to [close] by [stopServer]. *)
Definition closeCallback (windowId : windowId) (err : option jsError)
    : js world done :=
  modify (setRegistry (delete windowId));;
  mret (OnDone err None).

(** One [stopServer] call from entry to the end of its callback;
    [closeErr] is what [close] passes to it. *)
Definition stopServerRun (closeErr : option jsError) (windowId : windowId)
    : js world done :=
  p ← stopServer windowId;
  match p with
  | Stopped d => mret d
  | AwaitClose _ => closeCallback windowId closeErr
  end.

(** The body of the [forEach] callback of [stopAllServers]. *)
Definition stopOne (entry : Z * ServerRecord) : js world unit :=
  let server := entry.2 in
  try_catch
    (w ← get;
     if isListening w (httpServer server) then
       (if has_closeAllConnections rt
        then httpServer_closeAllConnections (httpServer server)
        else mret tt);;
       httpServer_close (httpServer server)
     else mret tt)
    (fun _ => mret tt).

Definition stopAllServers : js world unit :=
  w ← get;
  forEach (map_to_list (serversByWindow w)) stopOne;;
  modify (setRegistry (fun _ => ∅)).

End Server.

(** ** Vocabulary of the properties *)

(** The response carries the three headers that forbid caching. *)
Definition noCacheHeaders (res : serverResponse) : Prop :=
  headers res !! "surrogate-control" = Some "no-store"
  /\ headers res !! "cache-control"
     = Some "no-store, no-cache, must-revalidate, proxy-revalidate"
  /\ headers res !! "expires" = Some "0".

(** The response object once the handler has set its three headers and
    nothing else. *)
Definition noCacheResponse : serverResponse :=
  {| headers :=
       <["expires" := "0"]>
         (<["cache-control" := "no-store, no-cache, must-revalidate, proxy-revalidate"]>
            (<["surrogate-control" := "no-store"]> ∅));
     statusCode := 200; headersSent := false; body := ""; finished := false |}.

(** The two responses the handler can send. *)
Definition notFoundResponse : serverResponse :=
  {| headers := headers noCacheResponse; statusCode := 404; headersSent := true;
     body := "Not Found"; finished := true |}.

Definition okResponse (contentType data : string) : serverResponse :=
  {| headers := <["content-type" := contentType]> (headers noCacheResponse);
     statusCode := 200; headersSent := true; body := data; finished := true |}.

(** The value of [Content-Type] chosen for a file path. *)
Definition contentTypeOf (filePath : string) : string :=
  orElse (property contentTypes (Path.extname filePath)) "application/octet-stream".

(** The path the handler resolves for a decoded request path. *)
Definition filePathOf (root pathname : string) : string :=
  Path.join [root;
             if JsString.endsWith pathname "/" then pathname ++ "index.html"
             else pathname].

(** The directories an absolute path walks through, [.] and [..]
    resolved. *)
Definition segmentsOf (p : string) : list string :=
  Path.normalizeSegments false [] (JsString.split "/" p).

(** [p] is [root] itself or lies below it. *)
Definition isInside (root p : string) : bool :=
  bool_decide (segmentsOf root `prefix_of` segmentsOf p).

(** A request target that climbs [k] directories and then names a file
    of [m + 1] letters: [/../../xxx] for [k = 2], [m = 2]. *)
Fixpoint climb (k : nat) (rest : string) : string :=
  match k with
  | O => rest
  | S k' => String "." (String "." (String "/" (climb k' rest)))
  end.

Fixpoint letters (m : nat) : string :=
  match m with
  | O => EmptyString
  | S m' => String "x" (letters m')
  end.

Definition traversalTarget (k m : nat) : string :=
  String "/" (climb k (letters (S m))).

(** Only the characters [/], [.] and [x]: nothing to decode and no query. *)
Fixpoint plain (s : string) : bool :=
  match s with
  | EmptyString => true
  | String a rest =>
      (Ascii.eqb a "/" || Ascii.eqb a "." || Ascii.eqb a "x") && plain rest
  end.

(** In the loop of [extname], [startDot] is unset or on a dot that lies
    before [end]. *)
Definition dotMarked (path : string) (st : Path.extState) : Prop :=
  Path.startDot st = -1
  \/ (0 <= Path.startDot st < Path.endIdx st
      /\ String.get (Z.to_nat (Path.startDot st)) path = Some "."%char).

(** [s] is listening and was created for window [wid]. *)
Definition liveFor (w : world) (wid : windowId) (s : serverId) : Prop :=
  exists srv, heap w !! s = Some srv /\ listening srv = true /\ owner srv = wid.

Definition atMostOneListener (w : world) : Prop :=
  forall wid s1 s2, liveFor w wid s1 -> liveFor w wid s2 -> s1 = s2.

(** Every record points at a listening server of its window that serves
    the record's root. *)
Definition recordsBound (w : world) : Prop :=
  forall wid rec,
    serversByWindow w !! wid = Some rec ->
    exists srv, heap w !! httpServer rec = Some srv /\ listening srv = true
                /\ owner srv = wid /\ servedRoot srv = root (serverParams rec).

Definition registryInvariant (w : world) : Prop :=
  atMostOneListener w /\ recordsBound w.

(** Every listening server is the one its window's record points at. *)
Definition liveRegistered (w : world) : Prop :=
  forall s srv,
    heap w !! s = Some srv -> listening srv = true ->
    exists rec, serversByWindow w !! owner srv = Some rec /\ httpServer rec = s.

(** [close] never throws on this platform, as is the case in Node. *)
Definition closesQuietly (rt : runtime) : Prop :=
  forall s, close_throws rt s = None.

(** The heap once [serveFolder] has closed the server of the window's
    record, if there is one. *)
Definition heapAfterClose (a : serveArgs) (w : world) : list HttpServer :=
  match serversByWindow w !! arg_windowId a with
  | Some ex => alter (setListening false None) (httpServer ex) (heap w)
  | None => heap w
  end.

(** Neither [close] nor [closeAllConnections] throws. *)
Definition shutsDownQuietly (rt : runtime) : Prop :=
  closesQuietly rt /\ forall s, closeAllConnections_throws rt s = None.

(** The calls a client of the module can make, with what the platform
    answers to each. *)
Inductive call : Type :=
  | ServeFolder (env : serveEnv) (a : serveArgs)
  | StopServer (closeErr : option jsError) (wid : windowId)
  | StopAllServers.

(** One call run to completion; the world it leaves. *)
Definition runCall (rt : runtime) (cfg : httpsConfig) (c : call) (w : world)
    : world :=
  match c with
  | ServeFolder env a => (serveFolderRun rt cfg env a w).2
  | StopServer closeErr wid => (stopServerRun rt closeErr wid w).2
  | StopAllServers => (stopAllServers rt w).2
  end.

(** Calls made one after the other, each finished before the next. *)
Definition runCalls (rt : runtime) (cfg : httpsConfig) (cs : list call)
    (w : world) : world :=
  foldl (fun w c => runCall rt cfg c w) w cs.

(** A sequence of [serveFolder] calls, each run to completion before the
    next starts. *)
Fixpoint serveFolderRuns (rt : runtime) (cfg : httpsConfig)
    (calls : list (serveEnv * serveArgs)) (w : world)
    : list (completion done) * world :=
  match calls with
  | [] => ([], w)
  | (env, a) :: rest =>
      let '(c, w1) := serveFolderRun rt cfg env a w in
      let '(cs, w2) := serveFolderRuns rt cfg rest w1 in
      (c :: cs, w2)
  end.

(** After a first call, the further [calls] all hand back what the first
    one did and leave the world, trace included, as the first left it:
    no port requested, no server created, no listener started. *)
Definition repeatsAreIdle (rt : runtime) (cfg : httpsConfig)
    (first : serveEnv * serveArgs) (calls : list (serveEnv * serveArgs))
    (w : world) : Prop :=
  let '(c, w1) := serveFolderRun rt cfg first.1 first.2 w in
  serveFolderRuns rt cfg calls w1 = (map (fun _ => c) calls, w1).

(** The calls are for the window and the root of [a]. *)
Definition sameTarget (a : serveArgs) (calls : list (serveEnv * serveArgs)) : Prop :=
  Forall (fun c => arg_windowId c.2 = arg_windowId a /\ arg_root c.2 = arg_root a)
         calls.

(** Some character of [s] is a capital letter. *)
Definition hasUpperCase (s : string) : bool :=
  existsb JsString.is_upper (list_ascii_of_string s).

(** [stopAllServers] has tried to close server [s]: the calls it makes
    on a listening server are in the trace [evs], up to the first one
    that throws. *)
Definition closeAttempted (rt : runtime) (s : serverId) (evs : list event) : Prop :=
  (has_closeAllConnections rt = true -> In (CloseAllConnections s) evs)
  /\ (has_closeAllConnections rt = false \/ closeAllConnections_throws rt s = None ->
      In (Close s) evs).

(** ** Sample values *)

(** A platform on which [close] and [closeAllConnections] never throw. *)
Definition quietRuntime : runtime :=
  {| close_throws := fun _ => None;
     closeAllConnections_throws := fun _ => None;
     has_closeAllConnections := true |}.

Definition sampleTls : httpsConfig := {| cert := "CERT"; key := "KEY" |}.

Definition serveSiteA : serveArgs :=
  {| arg_root := "/tmp/siteA"; arg_useHttps := false; arg_windowId := 1 |}.

Definition serveSiteB : serveArgs :=
  {| arg_root := "/tmp/siteB"; arg_useHttps := false; arg_windowId := 1 |}.

Definition portFree (p : Z) : serveEnv :=
  {| portResult := inr p; createThrows := None; listenResult := None |}.

Definition portsExhausted : serveEnv :=
  {| portResult := inl NoPortAvailable; createThrows := None; listenResult := None |}.

Definition portTaken (p : Z) : serveEnv :=
  {| portResult := inr p; createThrows := None;
     listenResult := Some (SystemError "EADDRINUSE") |}.

Definition paramsSiteA : ServerParams :=
  {| port := 2929; root := "/tmp/siteA"; open := false; wait := 1000;
     https := None; watch := [] |}.

(** Window 1 serving site A on port 2929, as a first [serveFolder] call
    on an empty registry leaves the world. *)
Definition worldServingA : world :=
  (serveFolderRun quietRuntime sampleTls (portFree 2929) serveSiteA emptyWorld).2.

Definition serveSecure : serveArgs :=
  {| arg_root := "/tmp/siteA"; arg_useHttps := true; arg_windowId := 2 |}.

Definition badTlsMaterial : serveEnv :=
  {| portResult := inr 2929;
     createThrows := Some (OtherError "ERR_OSSL_PEM_NO_START_LINE");
     listenResult := None |}.

(** A site with one page and one file whose extension is in capitals. *)
Definition sampleFs : fileSystem :=
  fun p =>
    if String.eqb p "/tmp/site/index.html" then inr "<html></html>"
    else if String.eqb p "/tmp/site/LOGO.PNG" then inr "PNG"
    else if String.eqb p "/tmp/site/private" then inl (SystemError "EACCES")
    else inl (SystemError "ENOENT").

Definition getRequest (target : string) : incomingMessage :=
  {| url := target; method := "GET" |}.

(** ** The middleware and schedules of overlapping calls *)

(** The function [noCache(_, res, next)] kept in the [middleware] field
    of [serverParams]: three headers, then [next()]. *)
Definition noCache {A} (next : js serverResponse A) : js serverResponse A :=
  setHeader "Surrogate-Control" "no-store";;
  setHeader "Cache-Control"
            "no-store, no-cache, must-revalidate, proxy-revalidate";;
  setHeader "Expires" "0";;
  next.

(** What is left of a [serveFolder] call once it has returned, when its
    port [p] is found and its server binds. *)
Definition settle (cfg : httpsConfig) (q : servePending) (a : serveArgs)
    (p : Z) : js world done :=
  match q with
  | Settled d => mret d
  | AwaitPort =>
      '(params, s) ← onPort cfg None a p;
      httpServer_listen None s p (listenCallback a params s)
  end.

(** Two [serveFolder] calls made one right after the other: both return
    before the port promise of either settles; then the callbacks of the
    first run, then those of the second. *)
Definition overlappingServes (rt : runtime) (cfg : httpsConfig)
    (a1 a2 : serveArgs) (p1 p2 : Z) : js world (done * done) :=
  q1 ← serveFolder rt a1;
  q2 ← serveFolder rt a2;
  d1 ← settle cfg q1 a1 p1;
  d2 ← settle cfg q2 a2 p2;
  mret (d1, d2).

(** [stopServer] and then [serveFolder] before the close has completed;
    the close callback runs last. *)
Definition serveDuringStop (rt : runtime) (wid : windowId) (a : serveArgs)
    (closeErr : option jsError) : js world (servePending * done) :=
  p ← stopServer rt wid;
  q ← serveFolder rt a;
  match p with
  | Stopped d => mret (q, d)
  | AwaitClose _ => d ← closeCallback wid closeErr; mret (q, d)
  end.

(** The parameters a fresh server gets for the arguments [a] and the
    port it was given. *)
Definition paramsFor (cfg : httpsConfig) (a : serveArgs) (port : Z) : ServerParams :=
  {| port := port; root := arg_root a; open := false; wait := 1000;
     https := if arg_useHttps a then Some cfg else None; watch := [] |}.

(** The call takes the slow path: the window has no record for the
    requested root. *)
Definition needsNewServer (a : serveArgs) (w : world) : Prop :=
  forall ex, serversByWindow w !! arg_windowId a = Some ex ->
             root (serverParams ex) <> arg_root a.

(** A path segment that [normalize] keeps as it is. *)
Definition cleanSegment (seg : string) : Prop :=
  seg <> "" /\ seg <> "." /\ seg <> ".." /\ JsString.contains seg "/" = false.

(** A platform whose [close] throws. *)
Definition closeFails : runtime :=
  {| close_throws := fun _ => Some ERR_SERVER_NOT_RUNNING;
     closeAllConnections_throws := fun _ => None;
     has_closeAllConnections := true |}.

Definition recordSiteA : ServerRecord :=
  {| serverParams := paramsSiteA; httpServer := 0%nat |}.

(** Site A again, asked for over TLS this time. *)
Definition serveSiteATls : serveArgs :=
  {| arg_root := "/tmp/siteA"; arg_useHttps := true; arg_windowId := 1 |}.

(** Another window asking for site B. *)
Definition serveSiteBWindow2 : serveArgs :=
  {| arg_root := "/tmp/siteB"; arg_useHttps := false; arg_windowId := 2 |}.

(** Window 1 serving site A and window 2 serving site B. *)
Definition worldTwoWindows : world :=
  (serveFolderRun quietRuntime sampleTls (portFree 3000) serveSiteBWindow2
                  worldServingA).2.

Definition recordSiteB2 : ServerRecord :=
  {| serverParams := paramsFor sampleTls serveSiteBWindow2 3000;
     httpServer := 1%nat |}.

(** * Properties *)

(** ** The platform model on known values *)

(** [path.extname], [path.normalize] and [path.join] on the examples of
    the Node documentation, and [decodeURIComponent] on well-formed and
    malformed escapes. *)
Example extname_html : Path.extname "index.html" = ".html".
Proof. reflexivity. Qed.

Example extname_last_dot : Path.extname "index.coffee.md" = ".md".
Proof. reflexivity. Qed.

Example extname_trailing_dot : Path.extname "index." = ".".
Proof. reflexivity. Qed.

Example extname_none : Path.extname "index" = "".
Proof. reflexivity. Qed.

Example extname_dotfile : Path.extname ".index" = "".
Proof. reflexivity. Qed.

Example extname_keeps_case : Path.extname "/a/b.c/index.HTML" = ".HTML".
Proof. reflexivity. Qed.

Example normalize_doc :
  Path.normalize "/foo/bar//baz/asdf/quux/.." = "/foo/bar/baz/asdf".
Proof. reflexivity. Qed.

Example normalize_relative : Path.normalize "./a/../../b/" = "../b/".
Proof. reflexivity. Qed.

Example join_doc :
  Path.join ["/foo"; "bar"; "baz/asdf"; "quux"; ".."] = "/foo/bar/baz/asdf".
Proof. reflexivity. Qed.

Example join_directory : Path.join ["/tmp/site"; "/"] = "/tmp/site/".
Proof. reflexivity. Qed.

Example decode_escapes : Uri.decodeURIComponent "/%2e%2E/a%20b" = Normal "/../a b".
Proof. reflexivity. Qed.

Example decode_two_octets :
  Uri.decodeURIComponent "%C3%A9"
  = Normal (String (ascii_of_N 195) (String (ascii_of_N 169) "")).
Proof. reflexivity. Qed.

Example decode_truncated : Uri.decodeURIComponent "100%" = Throw URIError.
Proof. reflexivity. Qed.

Example decode_not_hex : Uri.decodeURIComponent "%zz" = Throw URIError.
Proof. reflexivity. Qed.

Example decode_overlong : Uri.decodeURIComponent "%C0%80" = Throw URIError.
Proof. reflexivity. Qed.

Example decode_surrogate : Uri.decodeURIComponent "%ED%A0%80" = Throw URIError.
Proof. reflexivity. Qed.

Example decode_lone_continuation : Uri.decodeURIComponent "%80" = Throw URIError.
Proof. reflexivity. Qed.

(** ** The request handler *)

Ltac js_unfold :=
  unfold mbind, mret, js_bind, js_ret, bind, ret, lift, throw, try_catch,
         modify, get in *.

Section HandlerFacts.

Variable url_parse : string -> completion urlObject.
Variable root : string.

Lemma setHeaders_fresh :
  (setHeader "Surrogate-Control" "no-store";;
   setHeader "Cache-Control"
             "no-store, no-cache, must-revalidate, proxy-revalidate";;
   setHeader "Expires" "0") newResponse
  = (Normal tt, noCacheResponse).
Proof. reflexivity. Qed.

(** The handler, one case per way it can end. *)
Lemma requestHandler_cases (req : incomingMessage) :
  requestHandler url_parse root req newResponse
  = match url_parse (url req) with
    | Throw e => (Throw e, noCacheResponse)
    | Normal parsedUrl =>
        match Uri.decodeURIComponent (toString (pathname parsedUrl)) with
        | Throw e => (Throw e, noCacheResponse)
        | Normal p =>
            if JsString.contains (filePathOf root p) "000"
            then (Throw (TypeError "ERR_INVALID_ARG_VALUE"), noCacheResponse)
            else (Normal (filePathOf root p), noCacheResponse)
        end
    end.
Proof.
  unfold requestHandler, fs_validatePath, filePathOf.
  js_unfold.
  destruct (url_parse (url req)) as [parsedUrl|e]; [|reflexivity].
  destruct (Uri.decodeURIComponent (toString (pathname parsedUrl))) as [p|e];
    [|reflexivity].
  destruct (JsString.contains _ _); reflexivity.
Qed.

Lemma noCacheResponse_headers : noCacheHeaders noCacheResponse.
Proof. repeat split. Qed.

Lemma readFileCallback_cases (filePath : string) (result : jsError + string) :
  readFileCallback filePath result noCacheResponse
  = (Normal tt,
     match result with
     | inl _ => notFoundResponse
     | inr data => okResponse (contentTypeOf filePath) data
     end).
Proof. destruct result; reflexivity. Qed.

(** A request from arrival to the end of its callback, one case per
    way it can end. *)
Lemma handleRequest_cases (fs : fileSystem) (req : incomingMessage) :
  handleRequest url_parse root fs req
  = match requestHandler url_parse root req newResponse with
    | (Throw e, _) => (Throw e, noCacheResponse)
    | (Normal filePath, _) =>
        (Normal tt,
         match fs filePath with
         | inl _ => notFoundResponse
         | inr data => okResponse (contentTypeOf filePath) data
         end)
    end.
Proof.
  unfold handleRequest. rewrite requestHandler_cases.
  destruct (url_parse (url req)) as [parsedUrl|e]; [|reflexivity].
  destruct (Uri.decodeURIComponent (toString (pathname parsedUrl))) as [p|e];
    [|reflexivity].
  destruct (JsString.contains _ _); [reflexivity|].
  apply readFileCallback_cases.
Qed.

Lemma notFoundResponse_headers : noCacheHeaders notFoundResponse.
Proof. repeat split. Qed.

Lemma okResponse_headers ct data : noCacheHeaders (okResponse ct data).
Proof. repeat split. Qed.

End HandlerFacts.

(** C2. Whatever the request and however its handling ends, the response
    object carries the three no-cache headers, and a response that was
    sent has status 200 or 404. *)
Theorem response_always_no_cache
    (url_parse : string -> completion urlObject) (root : string)
    (fs : fileSystem) (req : incomingMessage) :
  let res := (handleRequest url_parse root fs req).2 in
  noCacheHeaders res
  /\ (finished res = true -> statusCode res = 200 \/ statusCode res = 404).
Proof.
  rewrite handleRequest_cases.
  destruct (requestHandler url_parse root req newResponse) as [[filePath|e] res0];
    cbn [snd].
  - destruct (fs filePath) as [err|data].
    + split; [apply notFoundResponse_headers | now right].
    + split; [apply okResponse_headers | now left].
  - split; [apply noCacheResponse_headers | discriminate].
Qed.

(** C3. An error thrown by [decodeURIComponent] is caught nowhere in the
    handler: it leaves [requestHandler], and the request gets no
    response, not even a 404. *)
Theorem malformed_escape_escapes_handler
    (url_parse : string -> completion urlObject) (root : string)
    (fs : fileSystem) (req : incomingMessage)
    (parsedUrl : urlObject) (e : jsError) :
  url_parse (url req) = Normal parsedUrl ->
  Uri.decodeURIComponent (toString (pathname parsedUrl)) = Throw e ->
  exists res,
    handleRequest url_parse root fs req = (Throw e, res)
    /\ headersSent res = false /\ finished res = false.
Proof.
  intros Hparse Hdecode. exists noCacheResponse.
  rewrite handleRequest_cases, requestHandler_cases, Hparse, Hdecode.
  repeat split.
Qed.

(** The request target [/%]: its escape is cut short. *)
Lemma malformed_escape_escapes_handler_witness :
  url_parse_origin_form (url (getRequest "/%")) = Normal {| pathname := Some "/%" |}
  /\ Uri.decodeURIComponent (toString (Some "/%")) = Throw URIError
  /\ exists res,
       handleRequest url_parse_origin_form "/tmp/site" sampleFs (getRequest "/%")
       = (Throw URIError, res)
       /\ headersSent res = false /\ finished res = false.
Proof.
  split; [reflexivity|]. split; [reflexivity|].
  apply (malformed_escape_escapes_handler url_parse_origin_form "/tmp/site"
           sampleFs (getRequest "/%") {| pathname := Some "/%" |} URIError);
    reflexivity.
Defined.

(** A decoded NUL character is refused by [fs.readFile] before any read
    starts; that throw leaves the handler too. *)
Lemma nul_path_escapes_handler (fs : fileSystem) :
  handleRequest url_parse_origin_form "/tmp/site" fs (getRequest "/%00")
  = (Throw (TypeError "ERR_INVALID_ARG_VALUE"), noCacheResponse).
Proof. rewrite handleRequest_cases, requestHandler_cases. reflexivity. Qed.

(** C6. When the read of the resolved path fails, for whatever reason,
    the response is 404 with the body "Not Found"; and no request of the
    server gets any other response than that one or a 200. *)
Theorem read_failure_is_404
    (url_parse : string -> completion urlObject) (root : string)
    (fs : fileSystem) (req : incomingMessage)
    (filePath : string) (res0 : serverResponse) (e : jsError) :
  requestHandler url_parse root req newResponse = (Normal filePath, res0) ->
  fs filePath = inl e ->
  (exists res,
      handleRequest url_parse root fs req = (Normal tt, res)
      /\ statusCode res = 404 /\ body res = "Not Found" /\ finished res = true)
  /\ (forall req' c res',
        handleRequest url_parse root fs req' = (c, res') ->
        finished res' = true -> statusCode res' <> 200 ->
        res' = notFoundResponse).
Proof.
  intros Hsync Hread. split.
  - exists notFoundResponse.
    rewrite handleRequest_cases, Hsync, Hread. now repeat split.
  - intros req' c res'. rewrite handleRequest_cases.
    destruct (requestHandler url_parse root req' newResponse) as [[fp|e'] r].
    + destruct (fs fp) as [err|data]; intros [= <- <-]; [reflexivity|].
      intros _ Hne. now contradiction Hne.
    + intros [= <- <-]. discriminate.
Qed.

Lemma read_failure_is_404_witness :
  requestHandler url_parse_origin_form "/tmp/site" (getRequest "/private")
                 newResponse
  = (Normal "/tmp/site/private", noCacheResponse)
  /\ sampleFs "/tmp/site/private" = inl (SystemError "EACCES")
  /\ (exists res,
        handleRequest url_parse_origin_form "/tmp/site" sampleFs
                      (getRequest "/private") = (Normal tt, res)
        /\ statusCode res = 404 /\ body res = "Not Found" /\ finished res = true).
Proof.
  split; [reflexivity|]. split; [reflexivity|].
  apply (read_failure_is_404 url_parse_origin_form "/tmp/site" sampleFs
           (getRequest "/private") "/tmp/site/private" noCacheResponse
           (SystemError "EACCES")); reflexivity.
Defined.

(** ** Content types *)

Lemma property_absent (obj : list (string * string)) (k : string) :
  ~ In k (map fst obj) -> property obj k = None.
Proof.
  induction obj as [|[k' v] obj IH]; [reflexivity|]. cbn. intros Hnot.
  destruct (String.eqb_spec k' k) as [->|Hne].
  - exfalso. apply Hnot. now left.
  - apply IH. intros Hin. apply Hnot. now right.
Qed.

(** Every key of the table is in lower case, so an extension with a
    capital letter in it matches none. *)
Lemma upper_case_extension_absent (ext : string) :
  hasUpperCase ext = true -> ~ In ext (map fst contentTypes).
Proof.
  intros Hup Hin. cbn in Hin.
  repeat (destruct Hin as [<-|Hin]; [discriminate Hup|]).
  exact Hin.
Qed.

(** C10. A file that was read and whose extension is not, letter for
    letter, one of the keys of the table is sent as
    application/octet-stream. *)
Theorem unmatched_extension_is_octet_stream
    (url_parse : string -> completion urlObject) (root : string)
    (fs : fileSystem) (req : incomingMessage)
    (filePath : string) (res0 : serverResponse) (data : string) :
  requestHandler url_parse root req newResponse = (Normal filePath, res0) ->
  fs filePath = inr data ->
  ~ In (Path.extname filePath) (map fst contentTypes) ->
  exists res,
    handleRequest url_parse root fs req = (Normal tt, res)
    /\ statusCode res = 200 /\ body res = data
    /\ headers res !! "content-type" = Some "application/octet-stream".
Proof.
  intros Hsync Hread Hext.
  exists (okResponse "application/octet-stream" data).
  rewrite handleRequest_cases, Hsync, Hread.
  unfold contentTypeOf. rewrite (property_absent _ _ Hext).
  now repeat split.
Qed.

Lemma unmatched_extension_is_octet_stream_witness :
  requestHandler url_parse_origin_form "/tmp/site" (getRequest "/LOGO.PNG")
                 newResponse
  = (Normal "/tmp/site/LOGO.PNG", noCacheResponse)
  /\ sampleFs "/tmp/site/LOGO.PNG" = inr "PNG"
  /\ Path.extname "/tmp/site/LOGO.PNG" = ".PNG"
  /\ exists res,
       handleRequest url_parse_origin_form "/tmp/site" sampleFs
                     (getRequest "/LOGO.PNG") = (Normal tt, res)
       /\ statusCode res = 200 /\ body res = "PNG"
       /\ headers res !! "content-type" = Some "application/octet-stream".
Proof.
  split; [reflexivity|]. split; [reflexivity|]. split; [reflexivity|].
  apply (unmatched_extension_is_octet_stream url_parse_origin_form "/tmp/site"
           sampleFs (getRequest "/LOGO.PNG") "/tmp/site/LOGO.PNG"
           noCacheResponse "PNG"); [reflexivity|reflexivity|].
  intros Hin. cbn in Hin.
  repeat (destruct Hin as [Hin|Hin]; [discriminate Hin|]). exact Hin.
Defined.

(** Two requests on the sample site: the index page and a missing file. *)
Example get_index_html :
  handleRequest url_parse_origin_form "/tmp/site" sampleFs (getRequest "/")
  = (Normal tt, okResponse "text/html" "<html></html>").
Proof. rewrite handleRequest_cases. reflexivity. Qed.

Example get_missing_png :
  handleRequest url_parse_origin_form "/tmp/site" sampleFs
                (getRequest "/missing.png?v=2")
  = (Normal tt, notFoundResponse).
Proof. rewrite handleRequest_cases. reflexivity. Qed.

(** ** Stopping servers *)

Lemma isListening_after_close (w : world) (s : serverId) :
  isListening (setHeap (alter (setListening false None) s) w) s = false.
Proof.
  unfold isListening, setHeap. cbn.
  rewrite list_lookup_alter_eq.
  match goal with |- context [_ <$> ?o] => destruct o end; reflexivity.
Qed.

(** C7. With no record for the window, [stopServer] calls back without
    an error and changes nothing. With a record, it closes the server;
    when the close completes, with or without an error, the record is
    gone and the callback receives that error. The removal by the
    callback holds in whatever state it finds the registry. *)
Theorem stopServer_postconditions
    (rt : runtime) (closeErr : option jsError) (wid : windowId) (w : world) :
  match serversByWindow w !! wid with
  | None =>
      exists w',
        stopServerRun rt closeErr wid w = (Normal (OnDone None None), w')
        /\ serversByWindow w' = serversByWindow w
        /\ heap w' = heap w /\ trace w' = trace w
  | Some server =>
      match close_throws rt (httpServer server) with
      | None =>
          exists w',
            stopServerRun rt closeErr wid w = (Normal (OnDone closeErr None), w')
            /\ serversByWindow w' !! wid = None
            /\ isListening w' (httpServer server) = false
      | Some e => exists w', stopServerRun rt closeErr wid w = (Throw e, w')
      end
  end
  /\ (forall w2, exists w3,
        closeCallback wid closeErr w2 = (Normal (OnDone closeErr None), w3)
        /\ serversByWindow w3 !! wid = None).
Proof.
  split.
  - unfold stopServerRun, stopServer, httpServer_close, closeCallback, emit.
    js_unfold.
    destruct (serversByWindow w !! wid) as [server|] eqn:Hget.
    + cbn. destruct (close_throws rt (httpServer server)) as [e|].
      * eexists. reflexivity.
      * eexists. split; [reflexivity|]. split.
        -- cbn. apply lookup_delete_eq.
        -- apply isListening_after_close.
    + eexists. split; [reflexivity|]. cbn. repeat split.
      apply delete_id. exact Hget.
  - intros w2. unfold closeCallback. js_unfold. eexists.
    split; [reflexivity|]. cbn. apply lookup_delete_eq.
Qed.

Lemma isListening_close_other (w : world) (s s' : serverId) :
  s <> s' ->
  isListening (setHeap (alter (setListening false None) s) w) s' = isListening w s'.
Proof.
  intros Hne. unfold isListening, setHeap. cbn.
  now rewrite list_lookup_alter_ne.
Qed.

Lemma isListening_heap (w1 w2 : world) (s : serverId) :
  heap w1 = heap w2 -> isListening w1 s = isListening w2 s.
Proof. unfold isListening. now intros ->. Qed.

Lemma closeAttempted_app (rt : runtime) (s : serverId) (evs1 evs2 : list event) :
  closeAttempted rt s evs1 \/ closeAttempted rt s evs2 ->
  closeAttempted rt s (evs1 ++ evs2).
Proof.
  unfold closeAttempted.
  intros [[H1 H2]|[H1 H2]]; split; intros H; apply in_or_app; auto.
Qed.

(** One turn of the loop of [stopAllServers]: it ends normally whatever
    the platform does, touches neither the registry nor any other
    server, and never makes a server listen. *)
Lemma stopOne_spec (rt : runtime) (entry : Z * ServerRecord) (w : world) :
  let s := httpServer entry.2 in
  exists w' evs,
    stopOne rt entry w = (Normal tt, w')
    /\ serversByWindow w' = serversByWindow w
    /\ trace w' = (trace w ++ evs)%list
    /\ (forall s', isListening w' s' = true -> isListening w s' = true)
    /\ (forall s', isListening w s' = true -> isListening w' s' = false -> s' = s)
    /\ (isListening w s = true -> closeAttempted rt s evs)
    /\ (close_throws rt s = None ->
        has_closeAllConnections rt = false \/ closeAllConnections_throws rt s = None ->
        isListening w' s = false).
Proof.
  intros s. unfold stopOne, httpServer_closeAllConnections, httpServer_close, emit.
  fold s. js_unfold.
  destruct (isListening w s) eqn:Hl.
  2:{ exists w, []. rewrite app_nil_r. repeat split; auto; congruence. }
  assert (Hclosed : forall tr s',
             isListening (setHeap (alter (setListening false None) s)
                            {| serversByWindow := serversByWindow w;
                               heap := heap w; trace := tr |}) s' = true ->
             isListening w s' = true).
  { intros tr s' H. destruct (decide (s = s')) as [<-|Hne].
    - now rewrite isListening_after_close in H.
    - now rewrite isListening_close_other in H. }
  assert (Honly : forall tr s',
             isListening w s' = true ->
             isListening (setHeap (alter (setListening false None) s)
                            {| serversByWindow := serversByWindow w;
                               heap := heap w; trace := tr |}) s' = false ->
             s' = s).
  { intros tr s' H1 H2. destruct (decide (s = s')) as [<-|Hne]; [reflexivity|].
    rewrite isListening_close_other in H2 by exact Hne.
    unfold isListening in *. cbn in H2. congruence. }
  unfold closeAttempted.
  destruct (has_closeAllConnections rt) eqn:Hhas; cbn;
    [destruct (closeAllConnections_throws rt s) as [e1|] eqn:Hca; cbn|];
    try (destruct (close_throws rt s) as [e2|] eqn:Hc; cbn);
    eexists _, _; (split; [reflexivity|]); cbn; rewrite <- ?app_assoc;
    (split; [reflexivity|]); (split; [reflexivity|]);
    repeat split; eauto; intros;
    try solve [ apply isListening_after_close
              | cbn; tauto
              | unfold isListening in *; cbn in *; intuition congruence ].
Qed.

(** The whole loop, by induction on the entries it visits. *)
Lemma forEach_stopOne (rt : runtime) (l : list (Z * ServerRecord)) :
  forall w,
  exists w' evs,
    forEach l (stopOne rt) w = (Normal tt, w')
    /\ serversByWindow w' = serversByWindow w
    /\ trace w' = (trace w ++ evs)%list
    /\ (forall s, isListening w' s = true -> isListening w s = true)
    /\ (forall entry, In entry l -> isListening w (httpServer entry.2) = true ->
        closeAttempted rt (httpServer entry.2) evs)
    /\ (forall entry, In entry l ->
        close_throws rt (httpServer entry.2) = None ->
        has_closeAllConnections rt = false
        \/ closeAllConnections_throws rt (httpServer entry.2) = None ->
        isListening w' (httpServer entry.2) = false).
Proof.
  induction l as [|x rest IH]; intros w.
  - exists w, []. rewrite app_nil_r. cbn. repeat split; auto; contradiction.
  - destruct (stopOne_spec rt x w)
      as (w1 & evs1 & Hrun1 & Hreg1 & Htr1 & Hmono1 & Honly1 & Hatt1 & Hquiet1).
    destruct (IH w1) as (w2 & evs2 & Hrun2 & Hreg2 & Htr2 & Hmono2 & Hatt2 & Hquiet2).
    exists w2, (evs1 ++ evs2)%list.
    split.
    { cbn [forEach]. js_unfold. rewrite Hrun1. exact Hrun2. }
    split; [congruence|].
    split; [rewrite Htr2, Htr1; now rewrite app_assoc|].
    split; [auto|].
    split.
    + intros entry [<-|Hin] Hl; apply closeAttempted_app.
      * left. auto.
      * destruct (isListening w1 (httpServer entry.2)) eqn:Hl1.
        -- right. auto.
        -- left. pose proof (Honly1 _ Hl Hl1) as E. rewrite E in Hl |- *.
           apply Hatt1. exact Hl.
    + intros entry [<-|Hin] Hc Hca.
      * destruct (isListening w2 (httpServer x.2)) eqn:Hl2; [|reflexivity].
        apply Hmono2 in Hl2. rewrite Hquiet1 in Hl2; auto.
      * auto.
Qed.

(** C8. From any registry, with servers listening or already closed,
    and whatever the platform throws: [stopAllServers] returns normally,
    leaves the registry empty, opens nothing, and has tried to close
    every registered server that was listening; one that was closed
    already stays closed. Where neither call throws, no registered
    server listens any more. *)
Theorem stopAllServers_total (rt : runtime) (w : world) :
  exists w' evs,
    stopAllServers rt w = (Normal tt, w')
    /\ serversByWindow w' = ∅
    /\ trace w' = (trace w ++ evs)%list
    /\ (forall s, isListening w' s = true -> isListening w s = true)
    /\ (forall wid server,
          serversByWindow w !! wid = Some server ->
          (isListening w (httpServer server) = true ->
           closeAttempted rt (httpServer server) evs)
          /\ (isListening w (httpServer server) = false ->
              isListening w' (httpServer server) = false)
          /\ (close_throws rt (httpServer server) = None ->
              has_closeAllConnections rt = false
              \/ closeAllConnections_throws rt (httpServer server) = None ->
              isListening w' (httpServer server) = false)).
Proof.
  destruct (forEach_stopOne rt (map_to_list (serversByWindow w)) w)
    as (w1 & evs & Hrun & Hreg & Htr & Hmono & Hatt & Hquiet).
  exists (setRegistry (fun _ => ∅) w1), evs.
  split.
  { unfold stopAllServers. js_unfold. now rewrite Hrun. }
  split; [reflexivity|].
  split; [exact Htr|].
  split; [exact Hmono|].
  intros wid server Hget.
  assert (Hin : In (wid, server) (map_to_list (serversByWindow w))).
  { apply list_elem_of_In, elem_of_map_to_list. exact Hget. }
  split; [|split].
  - intros Hl. exact (Hatt (wid, server) Hin Hl).
  - intros Hl.
    destruct (isListening (setRegistry (fun _ => ∅) w1) (httpServer server))
      eqn:Hl'; [|reflexivity].
    apply Hmono in Hl'. congruence.
  - intros Hc Hca. exact (Hquiet (wid, server) Hin Hc Hca).
Qed.

(** ** Serving a folder *)

Section ServeFacts.

Variable rt : runtime.
Variable cfg : httpsConfig.

(** The fast path: same window, same root. *)
Lemma serveFolderRun_fast (env : serveEnv) (a : serveArgs) (w : world)
    (ex : ServerRecord) :
  serversByWindow w !! arg_windowId a = Some ex ->
  root (serverParams ex) = arg_root a ->
  serveFolderRun rt cfg env a w
  = (Normal (OnDone None (Some (serverParams ex))), w).
Proof.
  intros Hget Hroot. unfold serveFolderRun, serveFolder. js_unfold.
  rewrite Hget, Hroot, String.eqb_refl. reflexivity.
Qed.

(** A call that hands parameters to its callback leaves a record for
    the window that holds these parameters and the requested root. *)
Lemma serveFolderRun_success (env : serveEnv) (a : serveArgs) (w w1 : world)
    (p : ServerParams) :
  serveFolderRun rt cfg env a w = (Normal (OnDone None (Some p)), w1) ->
  exists ex,
    serversByWindow w1 !! arg_windowId a = Some ex
    /\ serverParams ex = p /\ root p = arg_root a.
Proof.
  unfold serveFolderRun, serveFolder, onPort, createServer, httpServer_listen,
    listenCallback, onPortRejected, httpServer_close, emit.
  js_unfold.
  destruct (serversByWindow w !! arg_windowId a) as [ex|] eqn:Hget.
  - destruct (String.eqb_spec (root (serverParams ex)) (arg_root a)) as [Heq|Hne].
    + intros [= <- <-]. eauto.
    + cbn. destruct (close_throws rt (httpServer ex)); cbn;
        destruct (portResult env); cbn; try discriminate;
        destruct (createThrows env); cbn; try discriminate;
        destruct (listenResult env); cbn; try discriminate;
        intros [= <- <-]; cbn; eexists; (split; [apply lookup_insert_eq|]);
        split; reflexivity.
  - cbn. destruct (portResult env); cbn; try discriminate;
      destruct (createThrows env); cbn; try discriminate;
      destruct (listenResult env); cbn; try discriminate;
      intros [= <- <-]; cbn; eexists; (split; [apply lookup_insert_eq|]);
      split; reflexivity.
Qed.

End ServeFacts.

(** C1, as amended. Once a [serveFolder] call for a window and a root
    has handed parameters to its callback, every later call for that
    window and root hands back the same parameters and changes nothing:
    it requests no port and starts no listener. *)
Theorem serveFolder_repeat_after_success
    (rt : runtime) (cfg : httpsConfig) (env : serveEnv) (a : serveArgs)
    (w w1 : world) (p : ServerParams) (calls : list (serveEnv * serveArgs)) :
  serveFolderRun rt cfg env a w = (Normal (OnDone None (Some p)), w1) ->
  sameTarget a calls ->
  repeatsAreIdle rt cfg (env, a) calls w.
Proof.
  intros Hfirst Hsame. unfold repeatsAreIdle. cbn [fst snd]. rewrite Hfirst.
  destruct (serveFolderRun_success rt cfg env a w w1 p Hfirst)
    as (ex & Hget & <- & Hroot).
  induction Hsame as [|[env' a'] rest [Hwid Hr] _ IH]; [reflexivity|].
  cbn [serveFolderRuns map]. cbn [snd] in Hwid, Hr.
  rewrite (serveFolderRun_fast rt cfg env' a' w1 ex) by congruence.
  now rewrite IH.
Qed.

Lemma serveFolder_repeat_after_success_witness :
  serveFolderRun quietRuntime sampleTls (portFree 2929) serveSiteA emptyWorld
  = (Normal (OnDone None (Some paramsSiteA)), worldServingA)
  /\ sameTarget serveSiteA [(portsExhausted, serveSiteA); (portTaken 3000, serveSiteA)]
  /\ repeatsAreIdle quietRuntime sampleTls (portFree 2929, serveSiteA)
       [(portsExhausted, serveSiteA); (portTaken 3000, serveSiteA)] emptyWorld.
Proof.
  split; [reflexivity|].
  split; [repeat constructor|].
  apply (serveFolder_repeat_after_success quietRuntime sampleTls (portFree 2929)
           serveSiteA emptyWorld worldServingA paramsSiteA).
  - reflexivity.
  - repeat constructor.
Defined.

(** C1 as stated fails when the first call fails: with no port free the
    first call reports the error and registers nothing, so the second
    call for the same window and root requests a port again and starts
    a listener. *)
Lemma serveFolder_retry_after_failure :
  sameTarget serveSiteA [(portFree 2929, serveSiteA)]
  /\ ~ repeatsAreIdle quietRuntime sampleTls (portsExhausted, serveSiteA)
        [(portFree 2929, serveSiteA)] emptyWorld.
Proof.
  split; [repeat constructor|].
  unfold repeatsAreIdle. intros H. vm_compute in H. discriminate H.
Qed.

(** The same run, call by call. *)
Lemma serveFolder_retry_trace :
  let r1 := serveFolderRun quietRuntime sampleTls portsExhausted serveSiteA
                           emptyWorld in
  let r2 := serveFolderRun quietRuntime sampleTls (portFree 2929) serveSiteA r1.2 in
  r1.1 = Normal (OnDone (Some NoPortAvailable) None)
  /\ trace r1.2 = [GetAvailablePort 2929 4000]
  /\ r2.1 = Normal (OnDone None (Some paramsSiteA))
  /\ trace r2.2 = [GetAvailablePort 2929 4000; GetAvailablePort 2929 4000;
                   CreateServer 0%nat false; Listen 0%nat 2929]
  /\ isListening r2.2 0%nat = true.
Proof. repeat split. Qed.

(** Unless it hands parameters to its callback, a [serveFolder] call
    leaves the map as it found it. *)
Lemma serveFolderRun_failure_keeps_registry
    (rt : runtime) (cfg : httpsConfig) (env : serveEnv) (a : serveArgs)
    (w w' : world) (c : completion done) :
  serveFolderRun rt cfg env a w = (c, w') ->
  (forall p, c <> Normal (OnDone None (Some p))) ->
  serversByWindow w' = serversByWindow w.
Proof.
  unfold serveFolderRun, serveFolder, onPort, createServer, httpServer_listen,
    listenCallback, onPortRejected, httpServer_close, emit.
  js_unfold.
  destruct (serversByWindow w !! arg_windowId a) as [ex|] eqn:Hget;
    [destruct (String.eqb (root (serverParams ex)) (arg_root a));
     [|cbn; destruct (close_throws rt (httpServer ex)); cbn]|cbn];
    try (destruct (portResult env); cbn;
         try (destruct (createThrows env); cbn;
              try (destruct (listenResult env); cbn)));
    intros [= <- <-]; intros Hfail; try reflexivity;
    exfalso; eapply Hfail; reflexivity.
Qed.

(** The branch of the [listen] callback that reports an error does what
    the callback protocol asks for; but [listen] never calls it with
    one. *)
Lemma listenCallback_error (a : serveArgs) (params : ServerParams)
    (s : serverId) (e : jsError) (w : world) :
  listenCallback a params s (Some e) w = (Normal (OnDone (Some e) None), w).
Proof. reflexivity. Qed.

(** C5. When the bind fails, the call ends with the bind error
    unhandled: it is thrown as an [error] event of the server and
    [onDone] is never called with it. The map stays as it was. *)
Theorem bind_failure_not_delivered
    (rt : runtime) (cfg : httpsConfig) (env : serveEnv) (a : serveArgs)
    (w : world) (port : Z) (e : jsError) :
  (forall ex, serversByWindow w !! arg_windowId a = Some ex ->
              root (serverParams ex) <> arg_root a) ->
  portResult env = inr port ->
  createThrows env = None ->
  listenResult env = Some e ->
  exists w',
    serveFolderRun rt cfg env a w = (Throw e, w')
    /\ serversByWindow w' = serversByWindow w.
Proof.
  intros Hslow Hport Hcreate Hlisten.
  unfold serveFolderRun, serveFolder, onPort, createServer, httpServer_listen,
    httpServer_close, emit.
  js_unfold.
  destruct (serversByWindow w !! arg_windowId a) as [ex|] eqn:Hget.
  - destruct (String.eqb_spec (root (serverParams ex)) (arg_root a)) as [Heq|_];
      [now contradiction (Hslow ex)|].
    cbn. destruct (close_throws rt (httpServer ex)); cbn;
      rewrite Hport; cbn; rewrite Hcreate; cbn; rewrite Hlisten;
      eexists; split; reflexivity.
  - cbn. rewrite Hport. cbn. rewrite Hcreate. cbn. rewrite Hlisten.
    eexists. split; reflexivity.
Qed.

(** A first call for window 1 whose port 2929 is taken between the
    search and the bind. *)
Lemma bind_failure_not_delivered_witness :
  (forall ex, serversByWindow emptyWorld !! arg_windowId serveSiteA = Some ex ->
              root (serverParams ex) <> arg_root serveSiteA)
  /\ portResult (portTaken 2929) = inr 2929
  /\ createThrows (portTaken 2929) = None
  /\ listenResult (portTaken 2929) = Some (SystemError "EADDRINUSE")
  /\ exists w',
       serveFolderRun quietRuntime sampleTls (portTaken 2929) serveSiteA emptyWorld
       = (Throw (SystemError "EADDRINUSE"), w')
       /\ serversByWindow w' = serversByWindow emptyWorld.
Proof.
  split; [intros ex Hex; discriminate Hex|].
  split; [reflexivity|]. split; [reflexivity|]. split; [reflexivity|].
  apply (bind_failure_not_delivered quietRuntime sampleTls (portTaken 2929)
           serveSiteA emptyWorld 2929 (SystemError "EADDRINUSE")).
  - intros ex Hex. discriminate Hex.
  - reflexivity.
  - reflexivity.
  - reflexivity.
Defined.

(** The same call, event by event. *)
Lemma bind_failure_trace :
  exists w',
    serveFolderRun quietRuntime sampleTls (portTaken 2929) serveSiteA emptyWorld
    = (Throw (SystemError "EADDRINUSE"), w')
    /\ serversByWindow w' = ∅
    /\ trace w' = [GetAvailablePort 2929 4000; CreateServer 0%nat false;
                   Listen 0%nat 2929]
    /\ isListening w' 0%nat = false.
Proof. eexists. repeat split. Qed.

(** Unusable TLS material makes [https.createServer] throw inside the
    fulfilment handler of the port promise; the rejection handler given
    to the same [then] does not see it. *)
Lemma bad_tls_not_delivered :
  exists w',
    serveFolderRun quietRuntime sampleTls badTlsMaterial serveSecure emptyWorld
    = (Throw (OtherError "ERR_OSSL_PEM_NO_START_LINE"), w')
    /\ serversByWindow w' = ∅.
Proof. eexists. repeat split. Qed.

(** ** The registry invariant *)

Lemma worldServingA_invariant : registryInvariant worldServingA.
Proof.
  split.
  - intros wid s1 s2 (srv1 & H1 & _) (srv2 & H2 & _).
    apply lookup_lt_Some in H1, H2.
    change (length (heap worldServingA)) with 1%nat in H1, H2. lia.
  - intros wid rec Hget.
    change (serversByWindow worldServingA)
      with (<[1 := {| serverParams := paramsSiteA; httpServer := 0%nat |}]>
              (∅ : gmap Z ServerRecord)) in Hget.
    apply lookup_insert_Some in Hget as [[<- <-]|[_ Hget]].
    + eexists. repeat split.
    + now rewrite lookup_empty in Hget.
Qed.

(** ** Path resolution *)

(** *** Request targets made of plain characters *)

Lemma plain_cons (a : ascii) (s : string) :
  plain (String a s) = true ->
  (a = "/" \/ a = "." \/ a = "x")%char /\ plain s = true.
Proof.
  cbn. intros H. apply andb_true_iff in H as [Ha Hs]. split; [|exact Hs].
  apply orb_true_iff in Ha as [Ha|Ha]; [apply orb_true_iff in Ha as [Ha|Ha]|];
    apply Ascii.eqb_eq in Ha; auto.
Qed.

Lemma pathOf_plain (s : string) : plain s = true -> pathOf s = s.
Proof.
  induction s as [|a s IH]; [reflexivity|]. intros H.
  apply plain_cons in H as [[->| [->| ->]] Hs]; cbn; now rewrite IH.
Qed.

Lemma tokens_plain (s : string) :
  plain s = true -> Uri.tokens s = Some (map Uri.Lit (list_ascii_of_string s)).
Proof.
  induction s as [|a s IH]; [reflexivity|]. intros H.
  apply plain_cons in H as [[->| [->| ->]] Hs]; cbn; now rewrite IH.
Qed.

Lemma decode_literals (l : list ascii) :
  Uri.decode (map Uri.Lit l) = Some (string_of_list_ascii l).
Proof.
  induction l as [|a l IH]; [reflexivity|]. cbn. now rewrite IH.
Qed.

Lemma decodeURIComponent_plain (s : string) :
  plain s = true -> Uri.decodeURIComponent s = Normal s.
Proof.
  intros H. unfold Uri.decodeURIComponent.
  rewrite (tokens_plain s H), decode_literals.
  now rewrite string_of_list_ascii_of_string.
Qed.

Lemma plain_letters (m : nat) : plain (letters m) = true.
Proof. induction m; [reflexivity|exact IHm]. Qed.

Lemma plain_climb (k : nat) (rest : string) :
  plain rest = true -> plain (climb k rest) = true.
Proof. intros H. induction k; [exact H|exact IHk]. Qed.

Lemma plain_traversalTarget (k m : nat) : plain (traversalTarget k m) = true.
Proof. apply (plain_climb k (letters (S m))), plain_letters. Qed.

(** *** [endsWith], [split] and concatenation *)

Lemma append_cons (a : ascii) (s t : string) :
  String a s ++ t = String a (s ++ t).
Proof. reflexivity. Qed.

Lemma endsWith_cons (a b c : ascii) (s : string) :
  JsString.endsWith (String a (String b s)) c = JsString.endsWith (String b s) c.
Proof. reflexivity. Qed.

Lemma endsWith_app (s t : string) (c : ascii) :
  t <> "" -> JsString.endsWith (s ++ t) c = JsString.endsWith t c.
Proof.
  intros Ht. induction s as [|a s IH]; [reflexivity|].
  rewrite append_cons. destruct (s ++ t) as [|b r] eqn:E.
  - destruct s; [cbn in E; contradiction|discriminate E].
  - rewrite endsWith_cons. exact IH.
Qed.

Lemma endsWith_letters (m : nat) : JsString.endsWith (letters (S m)) "/" = false.
Proof. induction m as [|m IH]; [reflexivity|exact IH]. Qed.

Lemma climb_nonempty (k : nat) (rest : string) : rest <> "" -> climb k rest <> "".
Proof. intros H. destruct k; [exact H|discriminate]. Qed.

Lemma endsWith_climb (k : nat) (rest : string) (c : ascii) :
  rest <> "" -> JsString.endsWith (climb k rest) c = JsString.endsWith rest c.
Proof.
  intros H. induction k as [|k IH]; [reflexivity|].
  cbn [climb]. rewrite !endsWith_cons.
  destruct (climb k rest) as [|b r] eqn:E;
    [now apply climb_nonempty in E|].
  rewrite endsWith_cons. exact IH.
Qed.

Lemma endsWith_traversalTarget (k m : nat) :
  JsString.endsWith (traversalTarget k m) "/" = false.
Proof.
  unfold traversalTarget.
  destruct (climb k (letters (S m))) as [|b r] eqn:E;
    [now apply climb_nonempty in E|].
  rewrite endsWith_cons, <- E, endsWith_climb by discriminate.
  apply endsWith_letters.
Qed.

Lemma split_nonempty (sep : ascii) (s : string) : JsString.split sep s <> [].
Proof.
  destruct s as [|a s]; [discriminate|]. cbn.
  destruct (Ascii.eqb a sep); [discriminate|].
  destruct (JsString.split sep s); discriminate.
Qed.

Lemma split_app (sep : ascii) (s t : string) :
  JsString.split sep (s ++ String sep t)
  = (JsString.split sep s ++ JsString.split sep t)%list.
Proof.
  induction s as [|a s IH].
  - change ("" ++ String sep t) with (String sep t).
    cbn [JsString.split]. now rewrite Ascii.eqb_refl.
  - rewrite append_cons. cbn [JsString.split]. rewrite IH.
    destruct (Ascii.eqb a sep); [reflexivity|].
    destruct (JsString.split sep s) eqn:E; [|reflexivity].
    now apply split_nonempty in E.
Qed.

Lemma split_letters (m : nat) : JsString.split "/" (letters m) = [letters m].
Proof. induction m as [|m IH]; [reflexivity|]. cbn. now rewrite IH. Qed.

Lemma split_climb (k : nat) (rest : string) :
  JsString.split "/" (climb k rest)
  = (repeat ".." k ++ JsString.split "/" rest)%list.
Proof.
  induction k as [|k IH]; [reflexivity|].
  cbn [climb repeat]. cbn. rewrite IH.
  destruct (repeat ".." k ++ JsString.split "/" rest)%list; reflexivity.
Qed.

Lemma split_traversalTarget (k m : nat) :
  JsString.split "/" (traversalTarget k m)
  = ("" :: repeat ".." k ++ [letters (S m)])%list.
Proof.
  unfold traversalTarget. cbn [JsString.split]. cbn [Ascii.eqb Bool.eqb].
  now rewrite split_climb, split_letters.
Qed.

Lemma string_length_cons (a : ascii) (s : string) :
  String.length (String a s) = S (String.length s).
Proof. reflexivity. Qed.

Lemma split_length_bound (sep : ascii) (s : string) :
  Forall (fun seg => (String.length seg <= String.length s)%nat)
         (JsString.split sep s).
Proof.
  induction s as [|a s IH]; [repeat constructor|].
  cbn [JsString.split]. destruct (Ascii.eqb a sep).
  - constructor; [change (String.length "") with 0%nat; lia|].
    eapply Forall_impl; [exact IH|]. intros seg. cbv beta.
    rewrite string_length_cons. lia.
  - destruct (JsString.split sep s) as [|seg segs].
    + constructor; [|constructor].
      rewrite !string_length_cons. change (String.length "") with 0%nat. lia.
    + inversion IH as [|? ? Hseg Hsegs]; subst.
      constructor; [rewrite !string_length_cons; lia|].
      eapply Forall_impl; [exact Hsegs|]. intros seg'. cbv beta.
      rewrite string_length_cons. lia.
Qed.

Lemma split_count_bound (sep : ascii) (s : string) :
  (length (JsString.split sep s) <= S (String.length s))%nat.
Proof.
  induction s as [|a s IH]; [change (String.length "") with 0%nat; cbn; lia|].
  rewrite string_length_cons.
  cbn [JsString.split]. destruct (Ascii.eqb a sep); [cbn [length]; lia|].
  destruct (JsString.split sep s); cbn [length] in *; lia.
Qed.

(** *** Segment resolution *)

Lemma normalizeSegments_app (allow : bool) (l1 l2 acc : list string) :
  Path.normalizeSegments allow acc (l1 ++ l2)
  = Path.normalizeSegments allow (rev (Path.normalizeSegments allow acc l1)) l2.
Proof.
  revert acc. induction l1 as [|seg l1 IH]; intros acc.
  - cbn. now rewrite rev_involutive.
  - cbn [app Path.normalizeSegments].
    destruct (String.eqb seg "" || String.eqb seg "."); [apply IH|].
    destruct (String.eqb seg ".."); [|apply IH].
    destruct acc as [|top acc']; [apply IH|].
    destruct (String.eqb top ".."); apply IH.
Qed.

(** Below an absolute path nothing is kept but segments of the input
    other than [..]. *)
Lemma normalizeSegments_keeps (P : string -> Prop) (l acc : list string) :
  Forall P acc ->
  Forall (fun seg => seg <> ".." -> P seg) l ->
  Forall P (Path.normalizeSegments false acc l).
Proof.
  revert acc. induction l as [|seg l IH]; intros acc Hacc Hl.
  - cbn. now apply Forall_rev.
  - inversion Hl as [|? ? Hseg Hrest]; subst. cbn [Path.normalizeSegments].
    destruct (String.eqb seg "" || String.eqb seg "."); [now apply IH|].
    destruct (String.eqb_spec seg "..") as [->|Hne].
    + destruct acc as [|top acc']; [now apply IH|].
      inversion Hacc; subst.
      destruct (String.eqb top ".."); now apply IH.
    + apply IH; [|exact Hrest]. constructor; auto.
Qed.

Lemma normalizeSegments_length (allow : bool) (l acc : list string) :
  (length (Path.normalizeSegments allow acc l) <= length acc + length l)%nat.
Proof.
  revert acc. induction l as [|seg l IH]; intros acc.
  - cbn. rewrite length_rev. lia.
  - cbn [Path.normalizeSegments length].
    destruct (String.eqb seg "" || String.eqb seg ".").
    { specialize (IH acc). lia. }
    destruct (String.eqb seg "..").
    + destruct acc as [|top acc'].
      * destruct allow; [specialize (IH [".."])|specialize (IH [])];
          cbn [length] in *; lia.
      * destruct (String.eqb top "..").
        -- destruct allow;
             [specialize (IH (".." :: top :: acc'))|specialize (IH (top :: acc'))];
             cbn [length] in *; lia.
        -- specialize (IH acc'). cbn [length]. lia.
    + specialize (IH (seg :: acc)). cbn [length] in *. lia.
Qed.

(** Enough [..] segments empty the stack of an absolute path. *)
Lemma normalizeSegments_climb (k : nat) (acc rest : list string) :
  Forall (fun seg => seg <> "..") acc ->
  (length acc <= k)%nat ->
  Path.normalizeSegments false acc (repeat ".." k ++ rest)
  = Path.normalizeSegments false [] rest.
Proof.
  revert acc. induction k as [|k IH]; intros acc Hacc Hlen.
  - destruct acc; [reflexivity|cbn in Hlen; lia].
  - cbn [repeat app Path.normalizeSegments].
    change (String.eqb ".." "" || String.eqb ".." ".") with false.
    change (String.eqb ".." "..") with true. cbv iota.
    destruct acc as [|top acc']; [apply IH; [constructor|cbn; lia]|].
    inversion Hacc as [|? ? Htop Hacc']; subst.
    destruct (String.eqb_spec top "..") as [->|_]; [contradiction|].
    apply IH; [exact Hacc'|cbn in Hlen; lia].
Qed.

Lemma segmentsOf_letters (m : nat) :
  Path.normalizeSegments false [] [letters (S m)] = [letters (S m)].
Proof.
  cbn [Path.normalizeSegments].
  replace (String.eqb (letters (S m)) "" || String.eqb (letters (S m)) ".")
    with false by (destruct m; reflexivity).
  replace (String.eqb (letters (S m)) "..") with false
    by (destruct m as [|[|m]]; reflexivity).
  reflexivity.
Qed.

(** *** Climbing out of the root *)

Lemma length_letters (m : nat) : String.length (letters m) = m.
Proof.
  induction m as [|m IH]; [reflexivity|].
  cbn [letters]. rewrite string_length_cons. now rewrite IH.
Qed.

Lemma contains_letters (m : nat) : JsString.contains (letters m) "000" = false.
Proof. induction m as [|m IH]; [reflexivity|exact IH]. Qed.

Lemma segmentsOf_root_bounds (root : string) :
  Forall (fun seg => seg <> ".." /\ (String.length seg <= String.length root)%nat)
         (segmentsOf root).
Proof.
  apply normalizeSegments_keeps; [constructor|].
  eapply Forall_impl; [apply split_length_bound|]. cbv beta. auto.
Qed.

Lemma join_two (a b : string) :
  a <> "" -> b <> "" -> Path.join [a; b] = Path.normalize (a ++ "/" ++ b).
Proof.
  intros Ha Hb. destruct a as [|c a]; [contradiction|].
  destruct b as [|d b]; [contradiction|]. reflexivity.
Qed.

Lemma normalize_absolute_file (p : string) :
  Path.isAbsolute p = true ->
  JsString.endsWith p "/" = false ->
  Path.normalize p
  = let s := JsString.join "/" (segmentsOf p) in
    if String.eqb s "" then "/" else "/" ++ s.
Proof.
  intros Habs Hend. unfold Path.normalize, segmentsOf.
  rewrite Habs, Hend. destruct p as [|c r]; [discriminate Habs|]. reflexivity.
Qed.

(** Where a target that climbs at least as many directories as the root
    has resolves to. *)
Lemma filePathOf_traversal (root : string) (k m : nat) :
  Path.isAbsolute root = true ->
  (length (JsString.split "/" root) <= k)%nat ->
  filePathOf root (traversalTarget k m) = String "/" (letters (S m)).
Proof.
  intros Habs Hk. unfold filePathOf. rewrite endsWith_traversalTarget.
  rewrite join_two; [|now destruct root|discriminate].
  change (root ++ "/" ++ traversalTarget k m)
    with (root ++ String "/" (traversalTarget k m)).
  rewrite normalize_absolute_file.
  - unfold segmentsOf.
    rewrite split_app, normalizeSegments_app, split_traversalTarget.
    cbn [Path.normalizeSegments]. cbn [String.eqb orb].
    rewrite normalizeSegments_climb.
    + rewrite segmentsOf_letters. reflexivity.
    + apply Forall_rev.
      eapply Forall_impl; [apply (segmentsOf_root_bounds root)|].
      cbv beta. tauto.
    + rewrite length_rev.
      etransitivity; [apply normalizeSegments_length|]. cbn [length]. exact Hk.
  - destruct root; [discriminate Habs|exact Habs].
  - rewrite endsWith_app by discriminate. unfold traversalTarget.
    rewrite endsWith_cons. apply endsWith_traversalTarget.
Qed.

Lemma segmentsOf_file_under_top (m : nat) :
  segmentsOf (String "/" (letters (S m))) = [letters (S m)].
Proof.
  unfold segmentsOf. cbn [JsString.split]. cbn [Ascii.eqb Bool.eqb].
  rewrite split_letters. cbn [Path.normalizeSegments]. cbn [String.eqb orb].
  apply segmentsOf_letters.
Qed.

(** Every root other than the top of the file system can be left: a
    target that climbs far enough resolves to a file right under [/]
    whose name no directory of the root has. *)
Lemma traversal_escapes_root (root : string) :
  Path.isAbsolute root = true ->
  segmentsOf root <> [] ->
  let target := traversalTarget (S (String.length root)) (String.length root) in
  let outside := String "/" (letters (S (String.length root))) in
  requestHandler url_parse_origin_form root (getRequest target) newResponse
  = (Normal outside, noCacheResponse)
  /\ isInside root outside = false.
Proof.
  intros Habs Hsegs target outside. split.
  - rewrite requestHandler_cases. unfold url_parse_origin_form, getRequest.
    cbn [url]. rewrite pathOf_plain by apply plain_traversalTarget.
    change (String.eqb target "") with false. cbn [pathname toString].
    rewrite decodeURIComponent_plain by apply plain_traversalTarget.
    unfold target.
    rewrite filePathOf_traversal; [|exact Habs|apply split_count_bound].
    cbn [JsString.contains]. rewrite contains_letters. reflexivity.
  - apply bool_decide_eq_false. intros [rest Hrest].
    unfold outside in Hrest. rewrite segmentsOf_file_under_top in Hrest.
    pose proof (segmentsOf_root_bounds root) as Hb.
    destruct (segmentsOf root) as [|r1 R]; [contradiction|].
    injection Hrest as Hr1 _. inversion Hb as [|? ? [_ Hlen] _].
    assert (Hr1len : String.length r1 = S (String.length root))
      by (rewrite <- Hr1; apply (length_letters (S (String.length root)))).
    lia.
Qed.

(** C9. The path that is read is [path.join] of the root and the decoded
    request path, [index.html] appended after a final separator, and
    nothing compares it with the root. So from every absolute root other
    than the top of the file system some target with [..] segments
    resolves to a path outside the root, and the file there is what the
    response carries; [/../../etc/passwd] on a server of [/tmp/site]
    reads [/etc/passwd]. *)
Theorem served_path_is_unchecked_join :
  (forall (url_parse : string -> completion urlObject) (root : string)
          (req : incomingMessage) (filePath : string) (res : serverResponse),
      requestHandler url_parse root req newResponse = (Normal filePath, res) ->
      exists parsedUrl p,
        url_parse (url req) = Normal parsedUrl
        /\ Uri.decodeURIComponent (toString (pathname parsedUrl)) = Normal p
        /\ filePath
           = Path.join [root; if JsString.endsWith p "/" then p ++ "index.html"
                              else p])
  /\ (forall root : string,
        Path.isAbsolute root = true ->
        segmentsOf root <> [] ->
        exists target filePath,
          requestHandler url_parse_origin_form root (getRequest target)
                         newResponse
          = (Normal filePath, noCacheResponse)
          /\ isInside root filePath = false
          /\ forall (fs : fileSystem) (data : string),
               fs filePath = inr data ->
               handleRequest url_parse_origin_form root fs (getRequest target)
               = (Normal tt, okResponse (contentTypeOf filePath) data))
  /\ (requestHandler url_parse_origin_form "/tmp/site"
                     (getRequest "/../../etc/passwd") newResponse
      = (Normal "/etc/passwd", noCacheResponse)
      /\ isInside "/tmp/site" "/etc/passwd" = false
      /\ isInside "/tmp/site" "/tmp/site/index.html" = true).
Proof.
  split; [|split].
  - intros url_parse root req filePath res. rewrite requestHandler_cases.
    destruct (url_parse (url req)) as [parsedUrl|e] eqn:Hparse; [|discriminate].
    destruct (Uri.decodeURIComponent (toString (pathname parsedUrl)))
      as [p|e] eqn:Hdecode; [|discriminate].
    destruct (JsString.contains _ _); [discriminate|].
    intros [= <- _]. exists parsedUrl, p.
    split; [reflexivity|]. split; [exact Hdecode|reflexivity].
  - intros root Habs Hsegs.
    destruct (traversal_escapes_root root Habs Hsegs) as [Hsync Hout].
    eexists _, _. split; [exact Hsync|]. split; [exact Hout|].
    intros fs data Hread. rewrite handleRequest_cases, Hsync, Hread. reflexivity.
  - repeat split.
Qed.

(** ** The registry invariant along serialized calls *)

Lemma alter_snoc {A} (f : A -> A) (l : list A) (x : A) :
  alter f (length l) (l ++ [x])%list = (l ++ [f x])%list.
Proof.
  replace (length l) with (length l + 0)%nat by lia.
  now rewrite alter_app_r.
Qed.

(** What a [serveFolder] call does to the map and to the heap, where
    [close] does not throw: nothing on the fast path; on a failure, the
    old server closed and at most an idle server added; on success, the
    old server closed and the window's record set to a new listening
    server for the requested root. *)
Lemma serveFolderRun_shape (rt : runtime) (cfg : httpsConfig) (env : serveEnv)
    (a : serveArgs) (w w' : world) (c : completion done) :
  closesQuietly rt ->
  serveFolderRun rt cfg env a w = (c, w') ->
  (exists ex, serversByWindow w !! arg_windowId a = Some ex
              /\ root (serverParams ex) = arg_root a /\ w' = w)
  \/ ((forall p, c <> Normal (OnDone None (Some p)))
      /\ serversByWindow w' = serversByWindow w
      /\ (heap w' = heapAfterClose a w
          \/ exists srv, heap w' = (heapAfterClose a w ++ [srv])%list
                         /\ listening srv = false))
  \/ (exists params srv,
        c = Normal (OnDone None (Some params))
        /\ root params = arg_root a
        /\ listening srv = true /\ owner srv = arg_windowId a
        /\ servedRoot srv = arg_root a
        /\ serversByWindow w'
           = <[arg_windowId a := {| serverParams := params;
                                    httpServer := length (heapAfterClose a w) |}]>
               (serversByWindow w)
        /\ heap w' = (heapAfterClose a w ++ [srv])%list).
Proof.
  intros Hquiet.
  unfold serveFolderRun, serveFolder, onPort, createServer, httpServer_listen,
    listenCallback, onPortRejected, httpServer_close, emit, heapAfterClose.
  js_unfold.
  destruct (serversByWindow w !! arg_windowId a) as [ex|] eqn:Hget.
  - destruct (String.eqb_spec (root (serverParams ex)) (arg_root a)) as [Heq|Hne].
    + intros [= <- <-]. left. eauto.
    + cbn. rewrite Hquiet. cbn.
      destruct (portResult env) as [err|port]; cbn.
      { intros [= <- <-]. right. left. cbn. split; [discriminate|auto]. }
      destruct (createThrows env); cbn.
      { intros [= <- <-]. right. left. cbn. split; [discriminate|auto]. }
      destruct (listenResult env); cbn.
      { intros [= <- <-]. right. left. cbn. split; [discriminate|].
        split; [reflexivity|]. right. eexists. split; reflexivity. }
      intros [= <- <-]. right. right. cbn. rewrite alter_snoc.
      eexists _, _. repeat split; reflexivity.
  - cbn. destruct (portResult env) as [err|port]; cbn.
    { intros [= <- <-]. right. left. cbn. split; [discriminate|auto]. }
    destruct (createThrows env); cbn.
    { intros [= <- <-]. right. left. cbn. split; [discriminate|auto]. }
    destruct (listenResult env); cbn.
    { intros [= <- <-]. right. left. cbn. split; [discriminate|].
      split; [reflexivity|]. right. eexists. split; reflexivity. }
    intros [= <- <-]. right. right. cbn. rewrite alter_snoc.
    eexists _, _. repeat split; reflexivity.
Qed.

Lemma heapAfterClose_live (a : serveArgs) (w : world) (s : serverId)
    (srv : HttpServer) :
  heapAfterClose a w !! s = Some srv -> listening srv = true ->
  heap w !! s = Some srv
  /\ forall ex, serversByWindow w !! arg_windowId a = Some ex -> httpServer ex <> s.
Proof.
  unfold heapAfterClose. intros Hs Hl.
  destruct (serversByWindow w !! arg_windowId a) as [ex|].
  - destruct (decide (httpServer ex = s)) as [E|E].
    + rewrite <- E, list_lookup_alter_eq in Hs.
      apply fmap_Some in Hs as (srv0 & _ & ->). discriminate Hl.
    + rewrite list_lookup_alter_ne in Hs by exact E.
      split; [exact Hs|]. now intros ex' [= <-].
  - split; [exact Hs|discriminate].
Qed.

Lemma heapAfterClose_keeps (a : serveArgs) (w : world) (s : serverId)
    (srv : HttpServer) :
  heap w !! s = Some srv ->
  (forall ex, serversByWindow w !! arg_windowId a = Some ex -> httpServer ex <> s) ->
  heapAfterClose a w !! s = Some srv.
Proof.
  unfold heapAfterClose. intros Hs Hne.
  destruct (serversByWindow w !! arg_windowId a) as [ex|]; [|exact Hs].
  rewrite list_lookup_alter_ne; [exact Hs|]. now apply Hne.
Qed.

Lemma liveRegistered_atMostOne (w : world) :
  liveRegistered w -> atMostOneListener w.
Proof.
  intros Hreg wid s1 s2 (srv1 & H1 & Hl1 & Ho1) (srv2 & H2 & Hl2 & Ho2).
  destruct (Hreg s1 srv1 H1 Hl1) as (rec1 & Hr1 & <-).
  destruct (Hreg s2 srv2 H2 Hl2) as (rec2 & Hr2 & <-).
  congruence.
Qed.

(** [serveFolder] keeps every listening server registered, however the
    call ends. *)
Lemma serveFolderRun_keeps_liveRegistered (rt : runtime) (cfg : httpsConfig)
    (env : serveEnv) (a : serveArgs) (w w' : world) (c : completion done) :
  closesQuietly rt ->
  serveFolderRun rt cfg env a w = (c, w') ->
  liveRegistered w -> liveRegistered w'.
Proof.
  intros Hquiet Hrun Hreg.
  destruct (serveFolderRun_shape rt cfg env a w w' c Hquiet Hrun)
    as [(ex & _ & _ & ->)|[(_ & Hmap & Hheap)
                          |(params & srv & _ & _ & Hl & Ho & _ & Hmap & Hheap)]];
    [exact Hreg| |]; intros s srv' Hs Hl'; rewrite Hmap.
  - assert (Hold : heapAfterClose a w !! s = Some srv').
    { destruct Hheap as [E|(idle & E & Hidle)]; rewrite E in Hs; [exact Hs|].
      apply lookup_snoc_Some in Hs as [[_ Hs]|[_ <-]]; [exact Hs|congruence]. }
    destruct (heapAfterClose_live a w s srv' Hold Hl') as [Hw _]. eauto.
  - rewrite Hheap in Hs. apply lookup_snoc_Some in Hs as [[_ Hs]|[-> <-]].
    + destruct (heapAfterClose_live a w s srv' Hs Hl') as [Hw Hne].
      destruct (Hreg s srv' Hw Hl') as (rec & Hrec & Hsid).
      exists rec. split; [|exact Hsid].
      rewrite lookup_insert_ne; [exact Hrec|].
      intros E. rewrite <- E in Hrec. now apply (Hne rec Hrec).
    + rewrite Ho, lookup_insert_eq. eauto.
Qed.

(** [serveFolder] keeps the records bound when it succeeds, and also
    when it fails for a window that had no record. *)
Lemma serveFolderRun_keeps_recordsBound (rt : runtime) (cfg : httpsConfig)
    (env : serveEnv) (a : serveArgs) (w w' : world) (c : completion done) :
  closesQuietly rt ->
  serveFolderRun rt cfg env a w = (c, w') ->
  serversByWindow w !! arg_windowId a = None
  \/ (exists p, c = Normal (OnDone None (Some p))) ->
  recordsBound w -> recordsBound w'.
Proof.
  intros Hquiet Hrun Hcase Hb.
  assert (Hother : forall wid rec,
             wid <> arg_windowId a \/ serversByWindow w !! arg_windowId a = None ->
             serversByWindow w !! wid = Some rec ->
             exists srv, heapAfterClose a w !! httpServer rec = Some srv
                         /\ listening srv = true /\ owner srv = wid
                         /\ servedRoot srv = root (serverParams rec)).
  { intros wid rec Hne Hrec.
    destruct (Hb wid rec Hrec) as (srv & Hs & Hl & Ho & Hr).
    exists srv. split; [|auto]. apply heapAfterClose_keeps; [exact Hs|].
    intros ex Hex E. destruct (Hb _ ex Hex) as (srv0 & Hs0 & _ & Ho0 & _).
    rewrite E in Hs0. destruct Hne as [Hne|Hnone]; congruence. }
  destruct (serveFolderRun_shape rt cfg env a w w' c Hquiet Hrun)
    as [(ex & _ & _ & ->)|[(Hfail & Hmap & Hheap)
                          |(params & srv & _ & Hroot & Hl & Ho & Hsr & Hmap & Hheap)]];
    [exact Hb| |]; intros wid rec Hrec; rewrite Hmap in Hrec.
  - destruct Hcase as [Hnone|[p ->]]; [|now contradiction (Hfail p)].
    destruct (Hother wid rec (or_intror Hnone) Hrec) as (srv & Hs & Hrest).
    exists srv. split; [|exact Hrest].
    destruct Hheap as [->|(idle & -> & _)]; [exact Hs|].
    now apply lookup_app_l_Some.
  - rewrite Hheap. apply lookup_insert_Some in Hrec as [[<- <-]|[Hne Hrec]].
    + exists srv. cbn. split; [now apply list_lookup_middle|]. repeat split; congruence.
    + destruct (Hother wid rec) as (srv' & Hs & Hrest); [left; congruence|exact Hrec|].
      exists srv'. split; [now apply lookup_app_l_Some|exact Hrest].
Qed.

(** What a [stopServer] call does to the map and to the heap. *)
Lemma stopServerRun_shape (rt : runtime) (closeErr : option jsError)
    (wid : windowId) (w w' : world) (c : completion done) :
  stopServerRun rt closeErr wid w = (c, w') ->
  (serversByWindow w' = serversByWindow w /\ heap w' = heap w)
  \/ (exists server,
        serversByWindow w !! wid = Some server
        /\ serversByWindow w' = delete wid (serversByWindow w)
        /\ heap w' = alter (setListening false None) (httpServer server) (heap w)).
Proof.
  unfold stopServerRun, stopServer, httpServer_close, closeCallback, emit.
  js_unfold.
  destruct (serversByWindow w !! wid) as [server|] eqn:Hget; cbn.
  - destruct (close_throws rt (httpServer server)); cbn; intros [= <- <-].
    + left. split; reflexivity.
    + right. exists server. repeat split.
  - intros [= <- <-]. left. cbn. split; [|reflexivity]. now apply delete_id.
Qed.

Lemma stopServerRun_keeps_liveRegistered (rt : runtime)
    (closeErr : option jsError) (wid : windowId) (w w' : world)
    (c : completion done) :
  stopServerRun rt closeErr wid w = (c, w') ->
  liveRegistered w -> liveRegistered w'.
Proof.
  intros Hrun Hreg.
  destruct (stopServerRun_shape rt closeErr wid w w' c Hrun)
    as [[Hmap Hheap]|(server & Hget & Hmap & Hheap)];
    intros s srv Hs Hl; rewrite Hmap; rewrite Hheap in Hs.
  - eauto.
  - destruct (decide (httpServer server = s)) as [E|E].
    + rewrite <- E, list_lookup_alter_eq in Hs.
      apply fmap_Some in Hs as (srv0 & _ & ->). discriminate Hl.
    + rewrite list_lookup_alter_ne in Hs by exact E.
      destruct (Hreg s srv Hs Hl) as (rec & Hrec & Hsid).
      exists rec. split; [|exact Hsid].
      rewrite lookup_delete_ne; [exact Hrec|]. congruence.
Qed.

Lemma stopServerRun_keeps_recordsBound (rt : runtime)
    (closeErr : option jsError) (wid : windowId) (w w' : world)
    (c : completion done) :
  stopServerRun rt closeErr wid w = (c, w') ->
  recordsBound w -> recordsBound w'.
Proof.
  intros Hrun Hb.
  destruct (stopServerRun_shape rt closeErr wid w w' c Hrun)
    as [[Hmap Hheap]|(server & Hget & Hmap & Hheap)];
    intros wid' rec Hrec; rewrite Hmap in Hrec; rewrite Hheap.
  - eauto.
  - apply lookup_delete_Some in Hrec as [Hne Hrec].
    destruct (Hb wid' rec Hrec) as (srv & Hs & Hrest).
    exists srv. split; [|exact Hrest].
    rewrite list_lookup_alter_ne; [exact Hs|].
    intros E. destruct (Hb wid server Hget) as (srv0 & Hs0 & _ & Ho0 & _).
    destruct Hrest as (_ & Ho & _). congruence.
Qed.

(** After [stopAllServers], where the platform does not throw, nothing
    that was registered or unregistered-and-closed listens. *)
Lemma stopAllServers_closes_all (rt : runtime) (w : world) :
  shutsDownQuietly rt ->
  liveRegistered w ->
  forall s, isListening (stopAllServers rt w).2 s = false.
Proof.
  intros [Hclose Hall] Hreg s.
  destruct (forEach_stopOne rt (map_to_list (serversByWindow w)) w)
    as (w1 & evs & Hrun & _ & _ & Hmono & _ & Hquiet).
  unfold stopAllServers. js_unfold. rewrite Hrun. cbn [snd].
  change (isListening (setRegistry (fun _ => ∅) w1) s) with (isListening w1 s).
  destruct (isListening w1 s) eqn:Hl1; [|reflexivity].
  pose proof (Hmono s Hl1) as Hl. unfold isListening in Hl.
  destruct (heap w !! s) as [srv|] eqn:Hs; [|discriminate Hl].
  destruct (Hreg s srv Hs Hl) as (rec & Hrec & Hsid).
  assert (Hin : In (owner srv, rec) (map_to_list (serversByWindow w))).
  { apply list_elem_of_In, elem_of_map_to_list. exact Hrec. }
  specialize (Hquiet (owner srv, rec) Hin (Hclose _) (or_intror (Hall _))).
  cbn [snd] in Hquiet. congruence.
Qed.

Lemma stopAllServers_registry (rt : runtime) (w : world) :
  serversByWindow (stopAllServers rt w).2 = ∅.
Proof.
  destruct (forEach_stopOne rt (map_to_list (serversByWindow w)) w)
    as (w1 & evs & Hrun & _).
  unfold stopAllServers. js_unfold. now rewrite Hrun.
Qed.

(** Along any sequence of calls made one after the other on a platform
    whose [close] calls do not throw, every listening server is the one
    registered for its window; so no window ever has two. *)
Lemma serialized_calls_one_listener (rt : runtime) (cfg : httpsConfig)
    (cs : list call) :
  shutsDownQuietly rt ->
  liveRegistered (runCalls rt cfg cs emptyWorld)
  /\ atMostOneListener (runCalls rt cfg cs emptyWorld).
Proof.
  intros Hrt.
  assert (Hstart : liveRegistered emptyWorld) by (intros s srv Hs; discriminate Hs).
  assert (Hgen : forall w, liveRegistered w -> liveRegistered (runCalls rt cfg cs w)).
  { induction cs as [|c cs IH]; intros w Hw; [exact Hw|].
    cbn [runCalls foldl]. apply IH. destruct c as [env a|closeErr wid|]; cbn [runCall].
    - destruct (serveFolderRun rt cfg env a w) as [c' w'] eqn:Hrun.
      exact (serveFolderRun_keeps_liveRegistered rt cfg env a w w' c'
               (proj1 Hrt) Hrun Hw).
    - destruct (stopServerRun rt closeErr wid w) as [c' w'] eqn:Hrun.
      exact (stopServerRun_keeps_liveRegistered rt closeErr wid w w' c' Hrun Hw).
    - intros s srv Hs Hl.
      pose proof (stopAllServers_closes_all rt w Hrt Hw s) as Hoff.
      unfold isListening in Hoff. rewrite Hs in Hoff. congruence. }
  split; [|apply liveRegistered_atMostOne]; apply Hgen, Hstart.
Qed.

(** C4. The records come unbound when a call for another root fails
    after it has closed the window's server: the record of the old root
    stays in the map and points at a server that does not listen, and a
    later call for the old root is answered from it. *)
Theorem failed_reserve_leaves_stale_record (rt : runtime) (cfg : httpsConfig)
    (env : serveEnv) (a : serveArgs) (w w' : world) (c : completion done)
    (ex : ServerRecord) :
  closesQuietly rt ->
  registryInvariant w ->
  serversByWindow w !! arg_windowId a = Some ex ->
  root (serverParams ex) <> arg_root a ->
  serveFolderRun rt cfg env a w = (c, w') ->
  (forall p, c <> Normal (OnDone None (Some p))) ->
  serversByWindow w' !! arg_windowId a = Some ex
  /\ isListening w' (httpServer ex) = false
  /\ ~ recordsBound w'
  /\ ~ registryInvariant w'
  /\ forall env' a',
       arg_windowId a' = arg_windowId a ->
       arg_root a' = root (serverParams ex) ->
       serveFolderRun rt cfg env' a' w'
       = (Normal (OnDone None (Some (serverParams ex))), w').
Proof.
  intros Hquiet [_ Hb] Hex Hroot Hrun Hfail.
  destruct (Hb _ ex Hex) as (srv & Hs & _).
  assert (Hclosed : exists srv0, heapAfterClose a w !! httpServer ex = Some srv0
                                 /\ listening srv0 = false).
  { exists (setListening false None srv). split; [|reflexivity].
    unfold heapAfterClose. rewrite Hex, list_lookup_alter_eq.
    apply fmap_Some. eauto. }
  destruct Hclosed as (srv0 & Hs0 & Hl0).
  destruct (serveFolderRun_shape rt cfg env a w w' c Hquiet Hrun)
    as [(ex' & Hex' & Hsame & _)|[(_ & Hmap & Hheap)|(p & _ & -> & _)]].
  - congruence.
  - assert (Hs' : heap w' !! httpServer ex = Some srv0).
    { destruct Hheap as [->|(idle & -> & _)]; [exact Hs0|].
      now apply lookup_app_l_Some. }
    assert (Hoff : isListening w' (httpServer ex) = false)
      by (unfold isListening; now rewrite Hs').
    assert (Hex' : serversByWindow w' !! arg_windowId a = Some ex) by congruence.
    assert (Hstale : ~ recordsBound w').
    { intros Hb'. destruct (Hb' (arg_windowId a) ex Hex') as (srv1 & Hs1 & Hl1 & _).
      congruence. }
    split; [exact Hex'|]. split; [exact Hoff|]. split; [exact Hstale|].
    split; [intros [_ Hb']; exact (Hstale Hb')|].
    intros env' a' Hwid Hr. apply serveFolderRun_fast; congruence.
  - now contradiction (Hfail p).
Qed.

(** Window 1 serves site A; a call for site B finds no free port. *)
Lemma failed_reserve_leaves_stale_record_witness :
  closesQuietly quietRuntime
  /\ registryInvariant worldServingA
  /\ serversByWindow worldServingA !! arg_windowId serveSiteB
     = Some {| serverParams := paramsSiteA; httpServer := 0%nat |}
  /\ root paramsSiteA <> arg_root serveSiteB
  /\ (serveFolderRun quietRuntime sampleTls portsExhausted serveSiteB
                     worldServingA).1
     = Normal (OnDone (Some NoPortAvailable) None)
  /\ let w' := (serveFolderRun quietRuntime sampleTls portsExhausted serveSiteB
                               worldServingA).2 in
     serversByWindow w' !! 1
     = Some {| serverParams := paramsSiteA; httpServer := 0%nat |}
     /\ isListening w' 0%nat = false
     /\ ~ recordsBound w'
     /\ ~ registryInvariant w'
     /\ serveFolderRun quietRuntime sampleTls (portFree 2929) serveSiteA w'
        = (Normal (OnDone None (Some paramsSiteA)), w').
Proof.
  split; [intros s; reflexivity|].
  split; [exact worldServingA_invariant|].
  split; [reflexivity|]. split; [discriminate|]. split; [reflexivity|].
  destruct (failed_reserve_leaves_stale_record quietRuntime sampleTls
              portsExhausted serveSiteB worldServingA
              (serveFolderRun quietRuntime sampleTls portsExhausted serveSiteB
                              worldServingA).2
              (Normal (OnDone (Some NoPortAvailable) None))
              {| serverParams := paramsSiteA; httpServer := 0%nat |})
    as (Hrec & Hoff & Hstale & Hinv & Hfast).
  - intros s. reflexivity.
  - exact worldServingA_invariant.
  - reflexivity.
  - discriminate.
  - reflexivity.
  - discriminate.
  - cbv zeta. split; [exact Hrec|]. split; [exact Hoff|].
    split; [exact Hstale|]. split; [exact Hinv|].
    apply (Hfast (portFree 2929) serveSiteA); reflexivity.
Defined.

(** ** The shape of an extension *)

Lemma substring_get (s : string) (n m : nat) (c : ascii) :
  String.get n s = Some c ->
  exists rest, substring n (S m) s = String c rest.
Proof.
  revert n. induction s as [|a s IH]; intros n Hget; [discriminate Hget|].
  destruct n as [|n].
  - injection Hget as ->. cbn. eauto.
  - cbn in Hget. destruct (IH n Hget) as [rest Hrest]. exists rest.
    cbn [substring]. exact Hrest.
Qed.

Lemma extnameLoop_dotMarked (path : string) (n : nat) (st : Path.extState) :
  dotMarked path st ->
  (Path.endIdx st = -1 \/ Z.of_nat n < Path.endIdx st) ->
  dotMarked path (Path.extnameLoop path n st).
Proof.
  revert st. induction n as [|i IH]; intros st Hdot Hend; [exact Hdot|].
  cbn [Path.extnameLoop].
  destruct (String.get i path) as [code|] eqn:Hget; [|exact Hdot].
  destruct (Ascii.eqb code "/").
  { destruct (negb (Path.matchedSlash st)); [exact Hdot|].
    apply IH; [exact Hdot|lia]. }
  destruct (Z.eqb_spec (Path.endIdx st) (-1)) as [He|He];
    destruct (Ascii.eqb_spec code ".") as [->|Hc];
    destruct (Z.eqb_spec (Path.startDot st) (-1)) as [Hs|Hs];
    try destruct (negb (Path.preDotState st =? 1));
    cbn [negb]; apply IH; unfold dotMarked in *; cbn;
    try rewrite Nat2Z.id; try lia; try (right; split; [lia|exact Hget]);
    try (left; lia); try (destruct Hdot as [?|[? ?]]; [lia|right; split; [lia|assumption]]).
Qed.

(** [path.extname] returns the empty string or a string that begins
    with a dot; such a key is never one of the properties every object
    inherits, so the table lookup sees own properties only. *)
Lemma extname_shape (path : string) :
  Path.extname path = "" \/ exists rest, Path.extname path = String "." rest.
Proof.
  unfold Path.extname.
  set (st := Path.extnameLoop path (String.length path) _).
  assert (Hdot : dotMarked path st).
  { apply extnameLoop_dotMarked; [left; reflexivity|left; reflexivity]. }
  destruct (Z.eqb_spec (Path.startDot st) (-1)) as [Hs|Hs]; [now left|].
  cbn [orb].
  destruct ((Path.endIdx st =? -1) || (Path.preDotState st =? 0)
            || (Path.preDotState st =? 1)
               && (Path.startDot st =? Path.endIdx st - 1)
               && (Path.startDot st =? Path.startPart st + 1)); [now left|].
  right. destruct Hdot as [?|[Hrange Hget]]; [contradiction|].
  replace (Z.to_nat (Path.endIdx st - Path.startDot st))
    with (S (Z.to_nat (Path.endIdx st - Path.startDot st - 1))) by lia.
  exact (substring_get path _ _ _ Hget).
Qed.

(** * Further properties *)

(** ** Starting a server *)

(** X5. A call on the slow path whose port is found and whose server
    binds: the callback gets the parameters built from the arguments
    and the port, the window's record holds them and a new server that
    listens on that port for the requested root, and the server of the
    window's previous record no longer listens. *)
Theorem serveFolder_start_postcondition
    (rt : runtime) (cfg : httpsConfig) (env : serveEnv) (a : serveArgs)
    (w : world) (port : Z) :
  closesQuietly rt ->
  recordsBound w ->
  needsNewServer a w ->
  portResult env = inr port ->
  createThrows env = None ->
  listenResult env = None ->
  exists w',
    serveFolderRun rt cfg env a w
    = (Normal (OnDone None (Some (paramsFor cfg a port))), w')
    /\ serversByWindow w'
       = <[arg_windowId a := {| serverParams := paramsFor cfg a port;
                                httpServer := length (heap w) |}]>
           (serversByWindow w)
    /\ heap w' !! length (heap w)
       = Some {| listening := true; boundPort := Some port;
                 servedRoot := arg_root a; secure := arg_useHttps a;
                 owner := arg_windowId a |}
    /\ length (heap w') = S (length (heap w))
    /\ (forall ex, serversByWindow w !! arg_windowId a = Some ex ->
                   isListening w' (httpServer ex) = false).
Proof.
  intros Hquiet Hb Hslow Hport Hcreate Hlisten.
  assert (Htls : bool_decide (is_Some (if arg_useHttps a then Some cfg else None))
                 = arg_useHttps a) by (destruct (arg_useHttps a); reflexivity).
  unfold serveFolderRun, serveFolder, onPort, createServer, httpServer_listen,
    listenCallback, httpServer_close, emit, paramsFor.
  js_unfold.
  destruct (serversByWindow w !! arg_windowId a) as [ex|] eqn:Hget.
  - destruct (String.eqb_spec (root (serverParams ex)) (arg_root a)) as [Heq|_];
      [now contradiction (Hslow ex)|].
    cbn. rewrite Hquiet. cbn. rewrite Hport. cbn. rewrite Hcreate. cbn.
    rewrite Hlisten. eexists. split; [reflexivity|].
    cbn. rewrite Htls, alter_snoc, !length_alter.
    split; [reflexivity|].
    split; [apply list_lookup_middle; now rewrite length_alter|].
    split; [rewrite length_app, length_alter; cbn; lia|].
    intros ex' [= <-]. destruct (Hb _ ex Hget) as (srv & Hs & _).
    apply lookup_lt_Some in Hs. unfold isListening. cbn.
    rewrite list_lookup_alter_ne by lia.
    rewrite lookup_app_l by (now rewrite length_alter).
    rewrite list_lookup_alter_eq.
    match goal with |- context [_ <$> ?o] => destruct o end; reflexivity.
  - cbn. rewrite Hport. cbn. rewrite Hcreate. cbn. rewrite Hlisten.
    eexists. split; [reflexivity|]. cbn. rewrite Htls, alter_snoc.
    split; [reflexivity|]. split; [now apply list_lookup_middle|].
    split; [rewrite length_app; cbn; lia|]. discriminate.
Qed.

Lemma serveFolder_start_postcondition_witness :
  closesQuietly quietRuntime
  /\ recordsBound worldServingA
  /\ needsNewServer serveSiteB worldServingA
  /\ exists w',
       serveFolderRun quietRuntime sampleTls (portFree 3000) serveSiteB worldServingA
       = (Normal (OnDone None (Some (paramsFor sampleTls serveSiteB 3000))), w')
       /\ serversByWindow w'
          = <[1 := {| serverParams := paramsFor sampleTls serveSiteB 3000;
                      httpServer := 1%nat |}]> (serversByWindow worldServingA)
       /\ heap w' !! 1%nat
          = Some {| listening := true; boundPort := Some 3000;
                    servedRoot := "/tmp/siteB"; secure := false; owner := 1 |}
       /\ length (heap w') = 2%nat
       /\ (forall ex, serversByWindow worldServingA !! 1 = Some ex ->
                      isListening w' (httpServer ex) = false).
Proof.
  assert (Hslow : needsNewServer serveSiteB worldServingA).
  { intros ex Hex. vm_compute in Hex. injection Hex as <-. discriminate. }
  split; [intros s; reflexivity|].
  split; [exact (proj2 worldServingA_invariant)|].
  split; [exact Hslow|].
  apply (serveFolder_start_postcondition quietRuntime sampleTls (portFree 3000)
           serveSiteB worldServingA 3000).
  - intros s. reflexivity.
  - exact (proj2 worldServingA_invariant).
  - exact Hslow.
  - reflexivity.
  - reflexivity.
  - reflexivity.
Defined.

(** X6. When no port is free, a call on the slow path hands the
    rejection of [getAvailablePort] to its callback as it is; it has
    asked for a port in 2929..4000, creates no server, starts no
    listener and leaves the map alone. *)
Theorem port_exhaustion_reported
    (rt : runtime) (cfg : httpsConfig) (env : serveEnv) (a : serveArgs)
    (w : world) (err : jsError) :
  needsNewServer a w ->
  portResult env = inl err ->
  exists w' evs,
    serveFolderRun rt cfg env a w = (Normal (OnDone (Some err) None), w')
    /\ serversByWindow w' = serversByWindow w
    /\ length (heap w') = length (heap w)
    /\ trace w' = (trace w ++ evs)%list
    /\ In (GetAvailablePort 2929 4000) evs
    /\ (forall s tls, ~ In (CreateServer s tls) evs)
    /\ (forall s p, ~ In (Listen s p) evs).
Proof.
  intros Hslow Hport.
  unfold serveFolderRun, serveFolder, onPortRejected, httpServer_close, emit.
  js_unfold.
  destruct (serversByWindow w !! arg_windowId a) as [ex|] eqn:Hget.
  - destruct (String.eqb_spec (root (serverParams ex)) (arg_root a)) as [Heq|_];
      [now contradiction (Hslow ex)|].
    cbn. destruct (close_throws rt (httpServer ex)) as [e|]; cbn; rewrite Hport.
    + exists {| serversByWindow := serversByWindow w; heap := heap w;
                trace := (trace w ++ [Close (httpServer ex); ConsoleWarn e;
                                      GetAvailablePort 2929 4000])%list |},
             [Close (httpServer ex); ConsoleWarn e; GetAvailablePort 2929 4000].
      split; [cbn; now rewrite <- !app_assoc|].
      repeat split; cbn; try tauto; intros; intuition discriminate.
    + exists {| serversByWindow := serversByWindow w;
                heap := alter (setListening false None) (httpServer ex) (heap w);
                trace := (trace w ++ [Close (httpServer ex);
                                      GetAvailablePort 2929 4000])%list |},
             [Close (httpServer ex); GetAvailablePort 2929 4000].
      split; [cbn; now rewrite <- !app_assoc|].
      repeat split; cbn; try tauto; try apply length_alter;
        intros; intuition discriminate.
  - cbn. rewrite Hport.
    exists {| serversByWindow := serversByWindow w; heap := heap w;
              trace := (trace w ++ [GetAvailablePort 2929 4000])%list |},
           [GetAvailablePort 2929 4000].
    split; [reflexivity|].
    repeat split; cbn; try tauto; intros; intuition discriminate.
Qed.

Lemma port_exhaustion_reported_witness :
  needsNewServer serveSiteB worldServingA
  /\ portResult portsExhausted = inl NoPortAvailable
  /\ exists w' evs,
       serveFolderRun quietRuntime sampleTls portsExhausted serveSiteB worldServingA
       = (Normal (OnDone (Some NoPortAvailable) None), w')
       /\ serversByWindow w' = serversByWindow worldServingA
       /\ length (heap w') = length (heap worldServingA)
       /\ trace w' = (trace worldServingA ++ evs)%list
       /\ In (GetAvailablePort 2929 4000) evs
       /\ (forall s tls, ~ In (CreateServer s tls) evs)
       /\ (forall s p, ~ In (Listen s p) evs).
Proof.
  assert (Hslow : needsNewServer serveSiteB worldServingA).
  { intros ex Hex. vm_compute in Hex. injection Hex as <-. discriminate. }
  split; [exact Hslow|]. split; [reflexivity|].
  apply (port_exhaustion_reported quietRuntime sampleTls portsExhausted
           serveSiteB worldServingA NoPortAvailable); [exact Hslow|reflexivity].
Defined.

(** X7. An error thrown by [close] on the old server is logged and
    goes no further: the call still asks for a port, starts the new
    server, records it for the window and hands its parameters to the
    callback. *)
Theorem close_error_swallowed
    (rt : runtime) (cfg : httpsConfig) (env : serveEnv) (a : serveArgs)
    (w : world) (ex : ServerRecord) (e : jsError) (port : Z) :
  serversByWindow w !! arg_windowId a = Some ex ->
  root (serverParams ex) <> arg_root a ->
  close_throws rt (httpServer ex) = Some e ->
  portResult env = inr port ->
  createThrows env = None ->
  listenResult env = None ->
  exists w' evs,
    serveFolderRun rt cfg env a w
    = (Normal (OnDone None (Some (paramsFor cfg a port))), w')
    /\ trace w' = (trace w ++ Close (httpServer ex) :: ConsoleWarn e
                              :: GetAvailablePort 2929 4000 :: evs)%list
    /\ serversByWindow w' !! arg_windowId a
       = Some {| serverParams := paramsFor cfg a port;
                 httpServer := length (heap w) |}
    /\ isListening w' (length (heap w)) = true.
Proof.
  intros Hget Hroot Hthrow Hport Hcreate Hlisten.
  unfold serveFolderRun, serveFolder, onPort, createServer, httpServer_listen,
    listenCallback, httpServer_close, emit, paramsFor.
  js_unfold. rewrite Hget.
  destruct (String.eqb_spec (root (serverParams ex)) (arg_root a)) as [Heq|_];
    [contradiction|].
  cbn. rewrite Hthrow. cbn. rewrite Hport. cbn. rewrite Hcreate. cbn.
  rewrite Hlisten. eexists _, _. split; [reflexivity|]. cbn.
  split; [rewrite <- !app_assoc; reflexivity|].
  split; [apply lookup_insert_eq|].
  unfold isListening. cbn. rewrite alter_snoc, list_lookup_middle; reflexivity.
Qed.

Lemma close_error_swallowed_witness :
  serversByWindow worldServingA !! arg_windowId serveSiteB = Some recordSiteA
  /\ root (serverParams recordSiteA) <> arg_root serveSiteB
  /\ close_throws closeFails (httpServer recordSiteA) = Some ERR_SERVER_NOT_RUNNING
  /\ exists w' evs,
       serveFolderRun closeFails sampleTls (portFree 3000) serveSiteB worldServingA
       = (Normal (OnDone None (Some (paramsFor sampleTls serveSiteB 3000))), w')
       /\ trace w' = (trace worldServingA ++ Close (httpServer recordSiteA)
                        :: ConsoleWarn ERR_SERVER_NOT_RUNNING
                        :: GetAvailablePort 2929 4000 :: evs)%list
       /\ serversByWindow w' !! arg_windowId serveSiteB
          = Some {| serverParams := paramsFor sampleTls serveSiteB 3000;
                    httpServer := length (heap worldServingA) |}
       /\ isListening w' (length (heap worldServingA)) = true.
Proof.
  split; [reflexivity|]. split; [discriminate|]. split; [reflexivity|].
  apply (close_error_swallowed closeFails sampleTls (portFree 3000) serveSiteB
           worldServingA recordSiteA ERR_SERVER_NOT_RUNNING 3000);
    [reflexivity|discriminate|reflexivity|reflexivity|reflexivity|reflexivity].
Defined.

(** X8. The fast path looks at the root only: a call that asks for TLS
    on a window that already serves the same root over plain HTTP is
    answered with the parameters of the plain server, and no TLS server
    is created. *)
Theorem same_root_ignores_useHttps
    (rt : runtime) (cfg : httpsConfig) (env env' : serveEnv)
    (a a' : serveArgs) (w w1 : world) (p : ServerParams) :
  serversByWindow w !! arg_windowId a = None ->
  arg_useHttps a = false ->
  serveFolderRun rt cfg env a w = (Normal (OnDone None (Some p)), w1) ->
  arg_windowId a' = arg_windowId a ->
  arg_root a' = arg_root a ->
  arg_useHttps a' = true ->
  serveFolderRun rt cfg env' a' w1 = (Normal (OnDone None (Some p)), w1)
  /\ https p = None
  /\ forall s tls, In (CreateServer s tls) (trace w1) ->
                   In (CreateServer s tls) (trace w) \/ tls = false.
Proof.
  intros Hnone Hplain Hrun Hwid Hroot Htls.
  destruct (serveFolderRun_success rt cfg env a w w1 p Hrun) as (ex & Hex & <- & Hr).
  split; [apply serveFolderRun_fast; congruence|].
  revert Hrun Hex.
  unfold serveFolderRun, serveFolder, onPort, createServer, httpServer_listen,
    listenCallback, onPortRejected, emit.
  js_unfold. rewrite Hnone, Hplain. cbn.
  destruct (portResult env); cbn; [discriminate|].
  destruct (createThrows env); cbn; [discriminate|].
  destruct (listenResult env); cbn; [discriminate|].
  intros [= Hp <-] Hex. split; [now rewrite <- Hp|].
  cbn. intros s tls Hin.
  repeat (apply in_app_or in Hin as [Hin|Hin]); auto;
    destruct Hin as [Hin|[]]; try discriminate Hin.
  injection Hin as _ <-. now right.
Qed.

Lemma same_root_ignores_useHttps_witness :
  serversByWindow emptyWorld !! arg_windowId serveSiteA = None
  /\ arg_useHttps serveSiteA = false
  /\ serveFolderRun quietRuntime sampleTls (portFree 2929) serveSiteA emptyWorld
     = (Normal (OnDone None (Some paramsSiteA)), worldServingA)
  /\ arg_useHttps serveSiteATls = true
  /\ serveFolderRun quietRuntime sampleTls (portFree 3000) serveSiteATls
                    worldServingA
     = (Normal (OnDone None (Some paramsSiteA)), worldServingA)
  /\ https paramsSiteA = None.
Proof.
  split; [reflexivity|]. split; [reflexivity|]. split; [reflexivity|].
  split; [reflexivity|].
  destruct (same_root_ignores_useHttps quietRuntime sampleTls (portFree 2929)
              (portFree 3000) serveSiteA serveSiteATls emptyWorld worldServingA
              paramsSiteA) as (Hfast & Hhttps & _);
    try reflexivity.
  split; [exact Hfast|exact Hhttps].
Defined.

(** ** Stopping, again *)

Lemma setRegistry_delete_absent (w : world) (wid : windowId) :
  serversByWindow w !! wid = None -> setRegistry (delete wid) w = w.
Proof.
  intros Hnone. destruct w as [m h t]. unfold setRegistry. cbn in *.
  now rewrite delete_id.
Qed.

(** X9. [stopServer] is idempotent: once a stop of a window has
    completed, stopping it again calls back without an error and
    changes nothing, not even the trace (no [close] is called). *)
Theorem stopServer_twice
    (rt : runtime) (e1 e2 : option jsError) (wid : windowId)
    (w w1 : world) (d : done) :
  stopServerRun rt e1 wid w = (Normal d, w1) ->
  stopServerRun rt e2 wid w1 = (Normal (OnDone None None), w1).
Proof.
  intros Hrun.
  assert (Hgone : serversByWindow w1 !! wid = None).
  { revert Hrun.
    unfold stopServerRun, stopServer, httpServer_close, closeCallback, emit.
    js_unfold.
    destruct (serversByWindow w !! wid) as [server|] eqn:Hget; cbn.
    - destruct (close_throws rt (httpServer server)); cbn; [discriminate|].
      intros [= _ <-]. cbn. apply lookup_delete_eq.
    - intros [= _ <-]. cbn. apply lookup_delete_eq. }
  unfold stopServerRun, stopServer. js_unfold. rewrite Hgone.
  now rewrite setRegistry_delete_absent.
Qed.

Lemma stopServer_twice_witness :
  stopServerRun quietRuntime None 1 worldServingA
  = (Normal (OnDone None None),
     (stopServerRun quietRuntime None 1 worldServingA).2)
  /\ stopServerRun quietRuntime (Some ERR_SERVER_NOT_RUNNING) 1
       (stopServerRun quietRuntime None 1 worldServingA).2
     = (Normal (OnDone None None),
        (stopServerRun quietRuntime None 1 worldServingA).2).
Proof.
  split; [reflexivity|].
  apply (stopServer_twice quietRuntime None (Some ERR_SERVER_NOT_RUNNING) 1
           worldServingA _ (OnDone None None)).
  reflexivity.
Defined.

(** X10. After a completed stop the window starts from scratch: a call
    for the very root that was served takes the slow path, asks for a
    port and, if all goes well, ends with a new listening server. *)
Theorem serve_after_stop_restarts
    (rt : runtime) (cfg : httpsConfig) (e : option jsError) (a : serveArgs)
    (w w1 : world) (d : done) (port : Z) :
  stopServerRun rt e (arg_windowId a) w = (Normal d, w1) ->
  serveFolder rt a w1
  = (Normal AwaitPort,
     {| serversByWindow := serversByWindow w1; heap := heap w1;
        trace := (trace w1 ++ [GetAvailablePort 2929 4000])%list |})
  /\ exists w2,
       serveFolderRun rt cfg (portFree port) a w1
       = (Normal (OnDone None (Some (paramsFor cfg a port))), w2)
       /\ serversByWindow w2 !! arg_windowId a
          = Some {| serverParams := paramsFor cfg a port;
                    httpServer := length (heap w1) |}
       /\ isListening w2 (length (heap w1)) = true.
Proof.
  intros Hrun.
  assert (Hgone : serversByWindow w1 !! arg_windowId a = None).
  { revert Hrun.
    unfold stopServerRun, stopServer, httpServer_close, closeCallback, emit.
    js_unfold.
    destruct (serversByWindow w !! arg_windowId a) as [server|] eqn:Hget; cbn.
    - destruct (close_throws rt (httpServer server)); cbn; [discriminate|].
      intros [= _ <-]. cbn. apply lookup_delete_eq.
    - intros [= _ <-]. cbn. apply lookup_delete_eq. }
  split.
  - unfold serveFolder, emit. js_unfold. now rewrite Hgone.
  - unfold serveFolderRun, serveFolder, onPort, createServer, httpServer_listen,
      listenCallback, emit, paramsFor, portFree.
    js_unfold. rewrite Hgone. cbn. eexists. split; [reflexivity|]. cbn.
    split; [apply lookup_insert_eq|].
    unfold isListening. cbn. rewrite alter_snoc, list_lookup_middle; reflexivity.
Qed.

Lemma serve_after_stop_restarts_witness :
  stopServerRun quietRuntime None (arg_windowId serveSiteA) worldServingA
  = (Normal (OnDone None None),
     (stopServerRun quietRuntime None 1 worldServingA).2)
  /\ exists w2,
       serveFolderRun quietRuntime sampleTls (portFree 2929) serveSiteA
                      (stopServerRun quietRuntime None 1 worldServingA).2
       = (Normal (OnDone None (Some (paramsFor sampleTls serveSiteA 2929))), w2)
       /\ serversByWindow w2 !! 1
          = Some {| serverParams := paramsFor sampleTls serveSiteA 2929;
                    httpServer := 1%nat |}
       /\ isListening w2 1%nat = true.
Proof.
  split; [reflexivity|].
  destruct (serve_after_stop_restarts quietRuntime sampleTls None serveSiteA
              worldServingA (stopServerRun quietRuntime None 1 worldServingA).2
              (OnDone None None) 2929) as [_ Hrestart]; [reflexivity|].
  exact Hrestart.
Defined.

(** ** Windows do not disturb one another *)

Lemma worldTwoWindows_bound : recordsBound worldTwoWindows.
Proof.
  intros wid rec Hget.
  change (serversByWindow worldTwoWindows)
    with (<[2 := recordSiteB2]> (<[1 := recordSiteA]> (∅ : gmap Z ServerRecord)))
    in Hget.
  apply lookup_insert_Some in Hget as [[<- <-]|[_ Hget]].
  - eexists. repeat split.
  - apply lookup_insert_Some in Hget as [[<- <-]|[_ Hget]].
    + eexists. repeat split.
    + now rewrite lookup_empty in Hget.
Qed.

(** X11. A [serveFolder] call for one window, however it ends, leaves
    the record of every other window in the map and its server as it
    was. *)
Theorem serveFolder_leaves_other_windows
    (rt : runtime) (cfg : httpsConfig) (env : serveEnv) (a : serveArgs)
    (w w' : world) (c : completion done) (wid : windowId) (rec : ServerRecord) :
  closesQuietly rt ->
  recordsBound w ->
  serveFolderRun rt cfg env a w = (c, w') ->
  wid <> arg_windowId a ->
  serversByWindow w !! wid = Some rec ->
  serversByWindow w' !! wid = Some rec
  /\ heap w' !! httpServer rec = heap w !! httpServer rec
  /\ isListening w' (httpServer rec) = true.
Proof.
  intros Hquiet Hb Hrun Hne Hrec.
  destruct (Hb wid rec Hrec) as (srv & Hs & Hl & Ho & _).
  assert (Hkept : heapAfterClose a w !! httpServer rec = Some srv).
  { apply heapAfterClose_keeps; [exact Hs|].
    intros ex Hex E. destruct (Hb _ ex Hex) as (srv0 & Hs0 & _ & Ho0 & _).
    rewrite E in Hs0. congruence. }
  assert (Hgoal : serversByWindow w' !! wid = Some rec
                  /\ heap w' !! httpServer rec = Some srv).
  { destruct (serveFolderRun_shape rt cfg env a w w' c Hquiet Hrun)
      as [(ex & _ & _ & ->)|[(_ & Hmap & Hheap)|(p & srv' & _ & _ & _ & _ & _ & Hmap & Hheap)]].
    - auto.
    - rewrite Hmap. split; [exact Hrec|].
      destruct Hheap as [->|(idle & -> & _)]; [exact Hkept|].
      now apply lookup_app_l_Some.
    - rewrite Hmap, Hheap. split; [now rewrite lookup_insert_ne|].
      now apply lookup_app_l_Some. }
  destruct Hgoal as [Hmap' Hheap'].
  split; [exact Hmap'|]. split; [congruence|].
  unfold isListening. now rewrite Hheap'.
Qed.

Lemma serveFolder_leaves_other_windows_witness :
  closesQuietly quietRuntime
  /\ recordsBound worldTwoWindows
  /\ 2 <> arg_windowId serveSiteB
  /\ serversByWindow worldTwoWindows !! 2 = Some recordSiteB2
  /\ let w' := (serveFolderRun quietRuntime sampleTls portsExhausted serveSiteB
                               worldTwoWindows).2 in
     serversByWindow w' !! 2 = Some recordSiteB2
     /\ heap w' !! httpServer recordSiteB2
        = heap worldTwoWindows !! httpServer recordSiteB2
     /\ isListening w' (httpServer recordSiteB2) = true.
Proof.
  split; [intros s; reflexivity|]. split; [exact worldTwoWindows_bound|].
  split; [discriminate|]. split; [reflexivity|].
  apply (serveFolder_leaves_other_windows quietRuntime sampleTls portsExhausted
           serveSiteB worldTwoWindows _
           (Normal (OnDone (Some NoPortAvailable) None)) 2 recordSiteB2).
  - intros s. reflexivity.
  - exact worldTwoWindows_bound.
  - reflexivity.
  - discriminate.
  - reflexivity.
Defined.

(** X12. A [stopServer] call for one window leaves the record of every
    other window in the map and its server listening. *)
Theorem stopServer_leaves_other_windows
    (rt : runtime) (closeErr : option jsError) (wid0 : windowId)
    (w w' : world) (c : completion done) (wid : windowId) (rec : ServerRecord) :
  recordsBound w ->
  stopServerRun rt closeErr wid0 w = (c, w') ->
  wid <> wid0 ->
  serversByWindow w !! wid = Some rec ->
  serversByWindow w' !! wid = Some rec
  /\ heap w' !! httpServer rec = heap w !! httpServer rec
  /\ isListening w' (httpServer rec) = true.
Proof.
  intros Hb Hrun Hne Hrec.
  destruct (Hb wid rec Hrec) as (srv & Hs & Hl & Ho & _).
  assert (Hgoal : serversByWindow w' !! wid = Some rec
                  /\ heap w' !! httpServer rec = Some srv).
  { destruct (stopServerRun_shape rt closeErr wid0 w w' c Hrun)
      as [[Hmap Hheap]|(server & Hget & Hmap & Hheap)]; rewrite Hmap, Hheap.
    - auto.
    - split; [now rewrite lookup_delete_ne|].
      rewrite list_lookup_alter_ne; [exact Hs|].
      intros E. destruct (Hb wid0 server Hget) as (srv0 & Hs0 & _ & Ho0 & _).
      rewrite E in Hs0. congruence. }
  destruct Hgoal as [Hmap' Hheap'].
  split; [exact Hmap'|]. split; [congruence|].
  unfold isListening. now rewrite Hheap'.
Qed.

Lemma stopServer_leaves_other_windows_witness :
  recordsBound worldTwoWindows
  /\ 2 <> 1
  /\ serversByWindow worldTwoWindows !! 2 = Some recordSiteB2
  /\ let w' := (stopServerRun quietRuntime None 1 worldTwoWindows).2 in
     serversByWindow w' !! 1 = None
     /\ serversByWindow w' !! 2 = Some recordSiteB2
     /\ heap w' !! httpServer recordSiteB2
        = heap worldTwoWindows !! httpServer recordSiteB2
     /\ isListening w' (httpServer recordSiteB2) = true.
Proof.
  split; [exact worldTwoWindows_bound|]. split; [discriminate|].
  split; [reflexivity|]. cbv zeta. split; [reflexivity|].
  apply (stopServer_leaves_other_windows quietRuntime None 1 worldTwoWindows _
           (Normal (OnDone None None)) 2 recordSiteB2).
  - exact worldTwoWindows_bound.
  - reflexivity.
  - discriminate.
  - reflexivity.
Defined.

(** ** Calls that overlap *)

(** X13. Two [serveFolder] calls for one window made before the first
    has registered its server both take the slow path: both callbacks
    get parameters, two servers listen for the window, and the map
    knows the second one only. This holds for equal roots too. *)
Theorem overlapping_serves_leave_two_listeners
    (rt : runtime) (cfg : httpsConfig) (a1 a2 : serveArgs) (w : world)
    (p1 p2 : Z) :
  serversByWindow w !! arg_windowId a1 = None ->
  arg_windowId a2 = arg_windowId a1 ->
  exists w',
    overlappingServes rt cfg a1 a2 p1 p2 w
    = (Normal (OnDone None (Some (paramsFor cfg a1 p1)),
               OnDone None (Some (paramsFor cfg a2 p2))), w')
    /\ liveFor w' (arg_windowId a1) (length (heap w))
    /\ liveFor w' (arg_windowId a1) (S (length (heap w)))
    /\ serversByWindow w' !! arg_windowId a1
       = Some {| serverParams := paramsFor cfg a2 p2;
                 httpServer := S (length (heap w)) |}
    /\ ~ atMostOneListener w'.
Proof.
  intros Hnone Hwid.
  unfold overlappingServes, settle, serveFolder, onPort, createServer,
    httpServer_listen, listenCallback, emit, paramsFor.
  js_unfold. rewrite Hwid, Hnone. cbn. rewrite Hnone. cbn.
  eexists. split; [reflexivity|]. cbn.
  rewrite !alter_snoc, !length_app. cbn [length]. rewrite !Nat.add_1_r.
  match goal with |- liveFor ?W _ _ /\ _ => set (w' := W) end.
  assert (H1 : liveFor w' (arg_windowId a1) (length (heap w))).
  { unfold liveFor. subst w'. unfold setRegistry, setHeap. cbn.
    rewrite list_lookup_alter_ne by lia.
    eexists. split; [apply lookup_app_l_Some; now apply list_lookup_middle|].
    split; reflexivity. }
  assert (H2 : liveFor w' (arg_windowId a1) (S (length (heap w)))).
  { unfold liveFor. subst w'. unfold setRegistry, setHeap. cbn.
    match goal with
    | |- context [alter ?f _ (?l ++ [?x])%list] =>
        replace (S (length (heap w))) with (length l)
          by (rewrite length_app; cbn; lia);
        rewrite alter_snoc
    end.
    eexists. split; [now apply list_lookup_middle|]. split; reflexivity. }
  split; [exact H1|]. split; [exact H2|].
  split; [subst w'; apply lookup_insert_eq|].
  intros Hone. specialize (Hone _ _ _ H1 H2). lia.
Qed.

Lemma overlapping_serves_leave_two_listeners_witness :
  serversByWindow emptyWorld !! arg_windowId serveSiteA = None
  /\ arg_windowId serveSiteB = arg_windowId serveSiteA
  /\ exists w',
       overlappingServes quietRuntime sampleTls serveSiteA serveSiteB 2929 2930
                         emptyWorld
       = (Normal (OnDone None (Some (paramsFor sampleTls serveSiteA 2929)),
                  OnDone None (Some (paramsFor sampleTls serveSiteB 2930))), w')
       /\ liveFor w' 1 0%nat
       /\ liveFor w' 1 1%nat
       /\ serversByWindow w' !! 1
          = Some {| serverParams := paramsFor sampleTls serveSiteB 2930;
                    httpServer := 1%nat |}
       /\ ~ atMostOneListener w'.
Proof.
  split; [reflexivity|]. split; [reflexivity|].
  apply (overlapping_serves_leave_two_listeners quietRuntime sampleTls
           serveSiteA serveSiteB emptyWorld 2929 2930); reflexivity.
Defined.


(** X14. A [serveFolder] call for the served root that arrives after
    [stopServer] but before its close has completed still finds the
    record: it is answered on the fast path with the parameters of the
    server that is being closed. When the close completes, the record
    is removed; the caller holds parameters of a server that does not
    listen and is registered nowhere. *)
Theorem serve_during_stop_returns_closing_server
    (rt : runtime) (wid : windowId) (a : serveArgs)
    (closeErr : option jsError) (w : world) (ex : ServerRecord) :
  serversByWindow w !! wid = Some ex ->
  arg_windowId a = wid ->
  root (serverParams ex) = arg_root a ->
  close_throws rt (httpServer ex) = None ->
  exists w',
    serveDuringStop rt wid a closeErr w
    = (Normal (Settled (OnDone None (Some (serverParams ex))),
               OnDone closeErr None), w')
    /\ serversByWindow w' !! wid = None
    /\ isListening w' (httpServer ex) = false
    /\ trace w' = (trace w ++ [Close (httpServer ex)])%list.
Proof.
  intros Hget Hwid Hroot Hquiet.
  unfold serveDuringStop, stopServer, serveFolder, closeCallback,
    httpServer_close, emit.
  js_unfold. rewrite Hget. cbn. rewrite Hquiet. cbn.
  rewrite Hwid, Hget, Hroot, String.eqb_refl. cbn.
  eexists. split; [reflexivity|]. cbn.
  split; [apply lookup_delete_eq|].
  split; [|reflexivity].
  unfold isListening. cbn. rewrite list_lookup_alter_eq.
  match goal with |- context [_ <$> ?o] => destruct o end; reflexivity.
Qed.

Lemma serve_during_stop_returns_closing_server_witness :
  serversByWindow worldServingA !! 1 = Some recordSiteA
  /\ arg_windowId serveSiteA = 1
  /\ root (serverParams recordSiteA) = arg_root serveSiteA
  /\ close_throws quietRuntime (httpServer recordSiteA) = None
  /\ exists w',
       serveDuringStop quietRuntime 1 serveSiteA None worldServingA
       = (Normal (Settled (OnDone None (Some (serverParams recordSiteA))),
                  OnDone None None), w')
       /\ serversByWindow w' !! 1 = None
       /\ isListening w' (httpServer recordSiteA) = false
       /\ trace w' = (trace worldServingA ++ [Close (httpServer recordSiteA)])%list.
Proof.
  split; [reflexivity|]. split; [reflexivity|]. split; [reflexivity|].
  split; [reflexivity|].
  apply (serve_during_stop_returns_closing_server quietRuntime 1 serveSiteA None
           worldServingA recordSiteA); reflexivity.
Defined.

(** ** Servers are never reopened *)

Lemma heapAfterClose_length (a : serveArgs) (w : world) :
  length (heapAfterClose a w) = length (heap w).
Proof.
  unfold heapAfterClose.
  destruct (serversByWindow w !! arg_windowId a); [apply length_alter|reflexivity].
Qed.

Lemma stopOne_heap_length (rt : runtime) (entry : Z * ServerRecord) (w : world) :
  length (heap (stopOne rt entry w).2) = length (heap w).
Proof.
  unfold stopOne, httpServer_closeAllConnections, httpServer_close, emit.
  js_unfold.
  destruct (isListening w (httpServer entry.2)); [|reflexivity].
  destruct (has_closeAllConnections rt); cbn;
    [destruct (closeAllConnections_throws rt (httpServer entry.2)); cbn|];
    try (destruct (close_throws rt (httpServer entry.2)); cbn);
    rewrite ?length_alter; reflexivity.
Qed.

Lemma forEach_stopOne_heap_length (rt : runtime) (l : list (Z * ServerRecord)) :
  forall w, length (heap (forEach l (stopOne rt) w).2) = length (heap w).
Proof.
  induction l as [|x rest IH]; intros w; [reflexivity|].
  cbn [forEach]. js_unfold.
  destruct (stopOne_spec rt x w) as (w1 & evs & Hrun & _).
  pose proof (stopOne_heap_length rt x w) as Hlen. rewrite Hrun in *.
  cbn [snd] in Hlen. rewrite <- Hlen. apply IH.
Qed.

(** One call neither shrinks the heap nor makes a server that was there
    before listen. *)
Lemma runCall_never_reopens (rt : runtime) (cfg : httpsConfig) (c : call)
    (w : world) :
  closesQuietly rt ->
  (length (heap w) <= length (heap (runCall rt cfg c w)))%nat
  /\ forall s, (s < length (heap w))%nat ->
               isListening (runCall rt cfg c w) s = true ->
               isListening w s = true.
Proof.
  intros Hquiet. destruct c as [env a|closeErr wid|]; cbn [runCall].
  - destruct (serveFolderRun rt cfg env a w) as [c' w'] eqn:Hrun. cbn [snd].
    pose proof (heapAfterClose_length a w) as Hlen.
    assert (Hold : forall s, isListening
                     {| serversByWindow := serversByWindow w;
                        heap := heapAfterClose a w; trace := trace w |} s = true ->
                   isListening w s = true).
    { intros s. unfold isListening. cbn.
      destruct (heapAfterClose a w !! s) as [srv|] eqn:Hs; [|discriminate].
      intros Hl. destruct (heapAfterClose_live a w s srv Hs Hl) as [-> _].
      exact Hl. }
    destruct (serveFolderRun_shape rt cfg env a w w' c' Hquiet Hrun)
      as [(ex & _ & _ & ->)|[(_ & _ & Hheap)|(p & srv & _ & _ & _ & _ & _ & _ & Hheap)]].
    + split; [lia|auto].
    + destruct Hheap as [Hheap|(idle & Hheap & _)]; rewrite Hheap.
      * split; [lia|]. intros s _ Hl. apply Hold.
        unfold isListening in *. cbn. now rewrite <- Hheap.
      * split; [rewrite length_app; lia|]. intros s Hs Hl. apply Hold.
        unfold isListening in *. cbn. rewrite Hheap in Hl.
        now rewrite lookup_app_l in Hl by lia.
    + rewrite Hheap. split; [rewrite length_app; lia|]. intros s Hs Hl.
      apply Hold. unfold isListening in *. cbn. rewrite Hheap in Hl.
      now rewrite lookup_app_l in Hl by lia.
  - destruct (stopServerRun rt closeErr wid w) as [c' w'] eqn:Hrun. cbn [snd].
    destruct (stopServerRun_shape rt closeErr wid w w' c' Hrun)
      as [[_ Hheap]|(server & _ & _ & Hheap)]; rewrite Hheap.
    + split; [lia|]. intros s _. unfold isListening. now rewrite Hheap.
    + split; [rewrite length_alter; lia|]. intros s _. unfold isListening.
      rewrite Hheap. destruct (decide (httpServer server = s)) as [<-|Hne].
      * rewrite list_lookup_alter_eq.
        match goal with |- context [_ <$> ?o] => destruct o end; discriminate.
      * now rewrite list_lookup_alter_ne.
  - pose proof (forEach_stopOne_heap_length rt (map_to_list (serversByWindow w)) w)
      as Hlen.
    destruct (forEach_stopOne rt (map_to_list (serversByWindow w)) w)
      as (w1 & evs & Hrun & _ & _ & Hmono & _).
    unfold stopAllServers. js_unfold. rewrite Hrun in *. cbn [snd] in *.
    split; [cbn; lia|]. intros s _ Hl. apply Hmono. exact Hl.
Qed.

(** X15. A server object, once it does not listen, never listens again,
    whatever calls follow: a new listener is always a new object. *)
Theorem closed_server_stays_closed
    (rt : runtime) (cfg : httpsConfig) (cs : list call) (w : world)
    (s : serverId) :
  closesQuietly rt ->
  (s < length (heap w))%nat ->
  isListening w s = false ->
  isListening (runCalls rt cfg cs w) s = false.
Proof.
  intros Hquiet. revert w. induction cs as [|c cs IH]; intros w Hs Hoff;
    [exact Hoff|].
  cbn [runCalls foldl].
  destruct (runCall_never_reopens rt cfg c w Hquiet) as [Hlen Hmono].
  apply IH; [lia|].
  destruct (isListening (runCall rt cfg c w) s) eqn:Hl; [|reflexivity].
  rewrite (Hmono s Hs Hl) in Hoff. discriminate Hoff.
Qed.

Lemma closed_server_stays_closed_witness :
  closesQuietly quietRuntime
  /\ (0 < length (heap (runCall quietRuntime sampleTls (StopServer None 1%Z)
                                worldServingA)))%nat
  /\ isListening (runCall quietRuntime sampleTls (StopServer None 1)
                          worldServingA) 0%nat = false
  /\ isListening
       (runCalls quietRuntime sampleTls
          [ServeFolder (portFree 2929) serveSiteA;
           ServeFolder (portFree 2930) serveSiteB; StopAllServers]
          (runCall quietRuntime sampleTls (StopServer None 1) worldServingA))
       0%nat = false.
Proof.
  split; [intros s; reflexivity|].
  split; [apply Nat.ltb_lt; reflexivity|]. split; [reflexivity|].
  apply (closed_server_stays_closed quietRuntime sampleTls).
  - intros s. reflexivity.
  - apply Nat.ltb_lt. reflexivity.
  - reflexivity.
Defined.

(** ** Sample runs of the invariants *)

Lemma serialized_calls_one_listener_witness :
  shutsDownQuietly quietRuntime
  /\ atMostOneListener
       (runCalls quietRuntime sampleTls
          [ServeFolder (portFree 2929) serveSiteA;
           ServeFolder portsExhausted serveSiteB;
           ServeFolder (portFree 2930) serveSiteBWindow2;
           StopServer None 1;
           ServeFolder (portTaken 2929) serveSiteA]
          emptyWorld).
Proof.
  assert (Hrt : shutsDownQuietly quietRuntime)
    by (split; intros s; reflexivity).
  split; [exact Hrt|].
  exact (proj2 (serialized_calls_one_listener quietRuntime sampleTls _ Hrt)).
Defined.

Lemma serveFolderRun_keeps_recordsBound_witness :
  closesQuietly quietRuntime
  /\ serveFolderRun quietRuntime sampleTls (portFree 3000) serveSiteB worldServingA
     = (Normal (OnDone None (Some (paramsFor sampleTls serveSiteB 3000))),
        (serveFolderRun quietRuntime sampleTls (portFree 3000) serveSiteB
                        worldServingA).2)
  /\ recordsBound worldServingA
  /\ recordsBound
       (serveFolderRun quietRuntime sampleTls (portFree 3000) serveSiteB
                       worldServingA).2.
Proof.
  split; [intros s; reflexivity|]. split; [reflexivity|].
  split; [exact (proj2 worldServingA_invariant)|].
  apply (serveFolderRun_keeps_recordsBound quietRuntime sampleTls (portFree 3000)
           serveSiteB worldServingA _
           (Normal (OnDone None (Some (paramsFor sampleTls serveSiteB 3000))))).
  - intros s. reflexivity.
  - reflexivity.
  - right. eexists. reflexivity.
  - exact (proj2 worldServingA_invariant).
Defined.

Lemma stopServerRun_keeps_recordsBound_witness :
  recordsBound worldTwoWindows
  /\ recordsBound
       (stopServerRun quietRuntime (Some ERR_SERVER_NOT_RUNNING) 2
                      worldTwoWindows).2.
Proof.
  split; [exact worldTwoWindows_bound|].
  apply (stopServerRun_keeps_recordsBound quietRuntime
           (Some ERR_SERVER_NOT_RUNNING) 2 worldTwoWindows _
           (Normal (OnDone (Some ERR_SERVER_NOT_RUNNING) None))).
  - reflexivity.
  - exact worldTwoWindows_bound.
Defined.

Lemma serveFolderRun_failure_keeps_registry_witness :
  serveFolderRun quietRuntime sampleTls badTlsMaterial serveSecure worldServingA
  = (Throw (OtherError "ERR_OSSL_PEM_NO_START_LINE"),
     (serveFolderRun quietRuntime sampleTls badTlsMaterial serveSecure
                     worldServingA).2)
  /\ serversByWindow
       (serveFolderRun quietRuntime sampleTls badTlsMaterial serveSecure
                       worldServingA).2
     = serversByWindow worldServingA.
Proof.
  split; [reflexivity|].
  apply (serveFolderRun_failure_keeps_registry quietRuntime sampleTls
           badTlsMaterial serveSecure worldServingA _
           (Throw (OtherError "ERR_OSSL_PEM_NO_START_LINE"))).
  - reflexivity.
  - discriminate.
Defined.

(** ** The middleware and the content types *)

(** X16. The middleware [noCache] sets the three headers on a response
    whose headers are not sent yet, touches nothing else of it and then
    runs [next]; on a response whose headers are sent it throws and
    [next] does not run. *)
Theorem noCache_then_next {A : Type} (next : js serverResponse A)
    (res : serverResponse) :
  (headersSent res = false ->
   exists res',
     noCache next res = next res'
     /\ noCacheHeaders res'
     /\ (forall k, k <> "surrogate-control" -> k <> "cache-control" ->
                   k <> "expires" -> headers res' !! k = headers res !! k)
     /\ statusCode res' = statusCode res /\ body res' = body res
     /\ headersSent res' = false /\ finished res' = finished res)
  /\ (headersSent res = true ->
      noCache next res = (Throw (OtherError "ERR_HTTP_HEADERS_SENT"), res)).
Proof.
  split; intros Hsent.
  - exists {| headers :=
                <["expires" := "0"]>
                  (<["cache-control" :=
                       "no-store, no-cache, must-revalidate, proxy-revalidate"]>
                     (<["surrogate-control" := "no-store"]> (headers res)));
              statusCode := statusCode res; headersSent := false;
              body := body res; finished := finished res |}.
    split.
    { destruct res as [h st hs b f]. cbn in Hsent. subst hs. reflexivity. }
    unfold noCacheHeaders. cbn [headers statusCode body headersSent finished].
    split; [repeat split|].
    + rewrite lookup_insert_ne by discriminate.
      rewrite lookup_insert_ne by discriminate. apply lookup_insert_eq.
    + rewrite lookup_insert_ne by discriminate. apply lookup_insert_eq.
    + apply lookup_insert_eq.
    + split; [|auto]. intros k H1 H2 H3.
      rewrite !lookup_insert_ne by congruence. reflexivity.
  - destruct res as [h st hs b f]. cbn in Hsent. subst hs. reflexivity.
Qed.

Lemma property_contentTypes_nonempty (ext ct : string) :
  In (ext, ct) contentTypes ->
  property contentTypes ext = Some ct /\ ct <> "".
Proof.
  intros Hin. cbn in Hin.
  repeat (destruct Hin as [[= <- <-]|Hin]; [split; [reflexivity|discriminate]|]).
  contradiction.
Qed.

(** X17. A file that was read and whose extension is a key of the
    table is sent with status 200, the type the table gives for that
    extension, the no-cache headers, and the file's bytes as body. *)
Theorem known_extension_content_type
    (url_parse : string -> completion urlObject) (root : string)
    (fs : fileSystem) (req : incomingMessage)
    (filePath : string) (res0 : serverResponse) (data ct : string) :
  requestHandler url_parse root req newResponse = (Normal filePath, res0) ->
  fs filePath = inr data ->
  In (Path.extname filePath, ct) contentTypes ->
  handleRequest url_parse root fs req = (Normal tt, okResponse ct data)
  /\ headers (okResponse ct data) !! "content-type" = Some ct
  /\ noCacheHeaders (okResponse ct data).
Proof.
  intros Hsync Hread Hin.
  destruct (property_contentTypes_nonempty _ _ Hin) as [Hprop Hne].
  split; [|split; [apply lookup_insert_eq|apply okResponse_headers]].
  rewrite handleRequest_cases, Hsync, Hread.
  unfold contentTypeOf. rewrite Hprop. unfold orElse.
  destruct (String.eqb_spec ct ""); [contradiction|reflexivity].
Qed.

Lemma known_extension_content_type_witness :
  requestHandler url_parse_origin_form "/tmp/site" (getRequest "/index.html")
                 newResponse
  = (Normal "/tmp/site/index.html", noCacheResponse)
  /\ sampleFs "/tmp/site/index.html" = inr "<html></html>"
  /\ In (Path.extname "/tmp/site/index.html", "text/html") contentTypes
  /\ handleRequest url_parse_origin_form "/tmp/site" sampleFs
                   (getRequest "/index.html")
     = (Normal tt, okResponse "text/html" "<html></html>").
Proof.
  split; [reflexivity|]. split; [reflexivity|]. split; [now left|].
  apply (known_extension_content_type url_parse_origin_form "/tmp/site" sampleFs
           (getRequest "/index.html") "/tmp/site/index.html" noCacheResponse
           "<html></html>" "text/html"); [reflexivity|reflexivity|now left].
Defined.

(** ** Requests without [..] stay under the root *)

Lemma string_app_assoc (a b c : string) : (a ++ b) ++ c = a ++ (b ++ c).
Proof.
  induction a as [|x a IH]; [reflexivity|].
  rewrite !append_cons. now rewrite IH.
Qed.

Lemma string_app_nil_r (a : string) : a ++ "" = a.
Proof. induction a as [|x a IH]; [reflexivity|]. rewrite append_cons. now rewrite IH. Qed.

Lemma endsWith_true_inv (p : string) (c : ascii) :
  JsString.endsWith p c = true -> exists q, p = q ++ String c "".
Proof.
  induction p as [|a p IH]; [discriminate|].
  destruct p as [|b r].
  - cbn. intros H. apply Ascii.eqb_eq in H as ->. now exists "".
  - rewrite endsWith_cons. intros H. destruct (IH H) as [q Hq].
    exists (String a q). rewrite append_cons. now rewrite <- Hq.
Qed.

Lemma split_id (sep : ascii) (s : string) :
  JsString.contains s sep = false -> JsString.split sep s = [s].
Proof.
  induction s as [|a s IH]; [reflexivity|]. cbn. intros H.
  apply orb_false_iff in H as [Ha Hs]. rewrite Ha, (IH Hs). reflexivity.
Qed.

Lemma split_no_sep (sep : ascii) (s : string) :
  Forall (fun seg => JsString.contains seg sep = false) (JsString.split sep s).
Proof.
  induction s as [|a s IH]; [repeat constructor|].
  cbn [JsString.split]. destruct (Ascii.eqb a sep) eqn:Ha.
  - constructor; [reflexivity|exact IH].
  - destruct (JsString.split sep s) as [|seg segs]; [repeat constructor; cbn; now rewrite Ha|].
    inversion IH as [|? ? Hseg Hsegs]; subst. constructor; [|exact Hsegs].
    cbn. now rewrite Ha, Hseg.
Qed.

Lemma split_join (segs : list string) :
  Forall (fun seg => JsString.contains seg "/" = false) segs ->
  segs <> [] ->
  JsString.split "/" (JsString.join "/" segs) = segs.
Proof.
  induction segs as [|x rest IH]; [contradiction|]. intros Hall _.
  inversion Hall as [|? ? Hx Hrest]; subst.
  destruct rest as [|y rest'].
  - cbn [JsString.join]. now apply split_id.
  - change (JsString.join "/" (x :: y :: rest'))
      with (x ++ String "/" (JsString.join "/" (y :: rest'))).
    rewrite split_app, (split_id _ _ Hx), IH; [reflexivity|exact Hrest|discriminate].
Qed.

Lemma normalizeSegments_clean (l acc : list string) :
  Forall cleanSegment acc ->
  Forall (fun seg => JsString.contains seg "/" = false) l ->
  Forall cleanSegment (Path.normalizeSegments false acc l).
Proof.
  revert acc. induction l as [|seg l IH]; intros acc Hacc Hl.
  - cbn. now apply Forall_rev.
  - inversion Hl as [|? ? Hseg Hrest]; subst. cbn [Path.normalizeSegments].
    destruct (String.eqb_spec seg "") as [->|Hne1]; [now apply IH|].
    destruct (String.eqb_spec seg ".") as [->|Hne2]; [now apply IH|].
    cbn [orb].
    destruct (String.eqb_spec seg "..") as [->|Hne3].
    + destruct acc as [|top acc']; [now apply IH|].
      inversion Hacc; subst.
      destruct (String.eqb top ".."); now apply IH.
    + apply IH; [|exact Hrest]. constructor; [|exact Hacc]. repeat split; auto.
Qed.

Lemma normalizeSegments_clean_id (l acc : list string) :
  Forall cleanSegment l ->
  Path.normalizeSegments false acc l = (rev acc ++ l)%list.
Proof.
  revert acc. induction l as [|seg l IH]; intros acc Hl.
  - cbn. now rewrite app_nil_r.
  - inversion Hl as [|? ? (Hne1 & Hne2 & Hne3 & _) Hrest]; subst.
    cbn [Path.normalizeSegments].
    destruct (String.eqb_spec seg ""); [contradiction|].
    destruct (String.eqb_spec seg "."); [contradiction|]. cbn [orb].
    destruct (String.eqb_spec seg ".."); [contradiction|].
    rewrite IH by exact Hrest. cbn [rev]. now rewrite <- app_assoc.
Qed.

(** Without a [..] segment nothing is ever popped: what was kept stays
    in front. *)
Lemma normalizeSegments_extends (l acc : list string) :
  ~ In ".." l ->
  exists rest, Path.normalizeSegments false acc l = (rev acc ++ rest)%list.
Proof.
  revert acc. induction l as [|seg l IH]; intros acc Hno.
  - exists []. cbn. now rewrite app_nil_r.
  - assert (Hno' : ~ In ".." l) by (intros H; apply Hno; now right).
    cbn [Path.normalizeSegments].
    destruct (String.eqb seg "" || String.eqb seg "."); [now apply IH|].
    destruct (String.eqb_spec seg "..") as [->|_]; [exfalso; apply Hno; now left|].
    destruct (IH (seg :: acc) Hno') as [rest Hrest].
    exists (seg :: rest). rewrite Hrest. cbn [rev]. now rewrite <- app_assoc.
Qed.

Lemma join_clean_nonempty (segs : list string) :
  Forall cleanSegment segs -> segs <> [] -> JsString.join "/" segs <> "".
Proof.
  intros Hall Hne. destruct segs as [|x rest]; [contradiction|].
  inversion Hall as [|? ? (Hx & _) _]; subst.
  destruct x as [|a x]; [contradiction|].
  destruct rest; cbn [JsString.join]; [discriminate|].
  rewrite append_cons. discriminate.
Qed.

Lemma segmentsOf_clean (p : string) : Forall cleanSegment (segmentsOf p).
Proof. apply normalizeSegments_clean; [constructor|apply split_no_sep]. Qed.

(** Normalizing an absolute path changes none of the directories it
    walks through. *)
Lemma segmentsOf_normalize (p : string) :
  Path.isAbsolute p = true -> segmentsOf (Path.normalize p) = segmentsOf p.
Proof.
  intros Habs. unfold Path.normalize. rewrite Habs.
  destruct p as [|c r]; [discriminate Habs|].
  change (String.eqb (String c r) "") with false. cbn [negb]. cbv iota.
  fold (segmentsOf (String c r)). set (S := segmentsOf (String c r)).
  pose proof (segmentsOf_clean (String c r)) as Hclean. fold S in Hclean.
  assert (Hnosep : Forall (fun seg => JsString.contains seg "/" = false) S).
  { eapply Forall_impl; [exact Hclean|]. cbv beta. unfold cleanSegment. tauto. }
  destruct S as [|x rest] eqn:HS; [reflexivity|].
  rewrite <- HS in *.
  assert (Hne : S <> []) by (rewrite HS; discriminate).
  destruct (String.eqb_spec (JsString.join "/" S) "") as [E|_];
    [now apply join_clean_nonempty in E|].
  destruct (JsString.endsWith (String c r) "/").
  - change ("/" ++ (JsString.join "/" S ++ "/"))
      with (String "/" (JsString.join "/" S ++ String "/" "")).
    unfold segmentsOf. cbn [JsString.split]. cbn [Ascii.eqb Bool.eqb].
    rewrite split_app, (split_join S Hnosep Hne).
    cbn [Path.normalizeSegments JsString.split]. cbn [String.eqb orb].
    rewrite normalizeSegments_app, (normalizeSegments_clean_id S [] Hclean).
    cbn [rev app Path.normalizeSegments]. cbn [String.eqb orb].
    now rewrite rev_involutive.
  - change ("/" ++ JsString.join "/" S) with (String "/" (JsString.join "/" S)).
    unfold segmentsOf. cbn [JsString.split]. cbn [Ascii.eqb Bool.eqb].
    rewrite (split_join S Hnosep Hne).
    cbn [Path.normalizeSegments]. cbn [String.eqb orb].
    apply (normalizeSegments_clean_id S [] Hclean).
Qed.

Lemma join_one (root : string) :
  root <> "" -> Path.join [root; ""] = Path.normalize root.
Proof. intros Hne. destruct root; [contradiction|reflexivity]. Qed.

Lemma isAbsolute_app (root t : string) :
  Path.isAbsolute root = true -> Path.isAbsolute (root ++ t) = true.
Proof. intros H. destruct root; [discriminate H|]. rewrite append_cons. exact H. Qed.

(** The segments of what the handler appends to the root have no [..]
    if the segments of the decoded path have none. *)
Lemma index_keeps_dotdot_free (p : string) :
  ~ In ".." (JsString.split "/" p) ->
  ~ In ".." (JsString.split "/"
               (if JsString.endsWith p "/" then p ++ "index.html" else p)).
Proof.
  intros Hno. destruct (JsString.endsWith p "/") eqn:Hend; [|exact Hno].
  destruct (endsWith_true_inv p "/" Hend) as [q ->].
  rewrite string_app_assoc.
  change (String "/" "" ++ "index.html") with (String "/" "index.html").
  rewrite split_app in *. intros Hin. apply Hno.
  apply in_app_or in Hin as [Hin|Hin]; apply in_or_app; [now left|].
  cbn in Hin. destruct Hin as [Hin|[]]. discriminate Hin.
Qed.

(** X18. A request whose decoded path has no [..] segment is resolved
    under the root: the directories of the root are the first
    directories of the path that is read, whatever else the path holds
    (empty or [.] segments, a final separator). Only [..] can lead out
    of the root. *)
Theorem dotdot_free_request_stays_inside (root p : string) :
  Path.isAbsolute root = true ->
  ~ In ".." (JsString.split "/" p) ->
  (exists rest, segmentsOf (filePathOf root p) = (segmentsOf root ++ rest)%list)
  /\ isInside root (filePathOf root p) = true.
Proof.
  intros Habs Hno.
  assert (Hrootne : root <> "") by (destruct root; [discriminate Habs|discriminate]).
  assert (Hext : exists rest,
             segmentsOf (filePathOf root p) = (segmentsOf root ++ rest)%list).
  { unfold filePathOf.
    pose proof (index_keeps_dotdot_free p Hno) as Hno'.
    destruct (if JsString.endsWith p "/" then p ++ "index.html" else p)
      as [|c t] eqn:Hp'.
    - rewrite join_one by exact Hrootne.
      rewrite segmentsOf_normalize by exact Habs.
      exists []. now rewrite app_nil_r.
    - rewrite join_two by (try discriminate; exact Hrootne).
      change (root ++ "/" ++ String c t) with (root ++ String "/" (String c t)).
      rewrite segmentsOf_normalize by (now apply isAbsolute_app).
      unfold segmentsOf. rewrite split_app, normalizeSegments_app.
      destruct (normalizeSegments_extends (JsString.split "/" (String c t))
                  (rev (Path.normalizeSegments false [] (JsString.split "/" root)))
                  Hno') as [rest Hrest].
      exists rest. rewrite Hrest. now rewrite rev_involutive. }
  split; [exact Hext|].
  apply bool_decide_eq_true. destruct Hext as [rest Hrest].
  exists rest. exact Hrest.
Qed.

Lemma dotdot_free_request_stays_inside_witness :
  Path.isAbsolute "/tmp/site" = true
  /\ ~ In ".." (JsString.split "/" "/a/./b//c/")
  /\ filePathOf "/tmp/site" "/a/./b//c/" = "/tmp/site/a/b/c/index.html"
  /\ isInside "/tmp/site" (filePathOf "/tmp/site" "/a/./b//c/") = true.
Proof.
  assert (Hno : ~ In ".." (JsString.split "/" "/a/./b//c/")).
  { cbn. intros Hin.
    repeat (destruct Hin as [Hin|Hin]; [discriminate Hin|]). exact Hin. }
  split; [reflexivity|]. split; [exact Hno|]. split; [reflexivity|].
  exact (proj2 (dotdot_free_request_stays_inside "/tmp/site" "/a/./b//c/"
                  eq_refl Hno)).
Defined.

(** ** Directory requests *)

Lemma join_snoc (segs : list string) (x : string) :
  segs <> [] ->
  JsString.join "/" (segs ++ [x]) = JsString.join "/" segs ++ String "/" x.
Proof.
  induction segs as [|y rest IH]; [contradiction|]. intros _.
  destruct rest as [|z rest'].
  - reflexivity.
  - change (JsString.join "/" ((y :: z :: rest') ++ [x]))
      with (y ++ String "/" (JsString.join "/" ((z :: rest') ++ [x]))).
    rewrite IH by discriminate.
    change (JsString.join "/" (y :: z :: rest'))
      with (y ++ String "/" (JsString.join "/" (z :: rest'))).
    rewrite string_app_assoc. now rewrite append_cons.
Qed.

Lemma segmentsOf_index (z : string) :
  segmentsOf (z ++ String "/" "index.html")
  = (segmentsOf z ++ ["index.html"])%list.
Proof.
  unfold segmentsOf. rewrite split_app, normalizeSegments_app.
  cbn [JsString.split]. cbn [Ascii.eqb Bool.eqb].
  cbn [Path.normalizeSegments]. cbn [String.eqb Ascii.eqb Bool.eqb orb].
  cbn [rev]. now rewrite rev_involutive.
Qed.

(** Where a decoded path that ends in a separator leads: to the file
    [index.html] of some directory. *)
Lemma filePathOf_directory (root p : string) :
  Path.isAbsolute root = true ->
  JsString.endsWith p "/" = true ->
  exists dir, filePathOf root p = dir ++ "/index.html".
Proof.
  intros Habs Hend. unfold filePathOf. rewrite Hend.
  destruct (endsWith_true_inv p "/" Hend) as [q ->].
  rewrite join_two;
    [|destruct root; [discriminate Habs|discriminate]
     |destruct q; discriminate].
  rewrite (string_app_assoc q).
  change (String "/" "" ++ "index.html") with (String "/" "index.html").
  change (root ++ "/" ++ q ++ String "/" "index.html")
    with (root ++ String "/" q ++ String "/" "index.html").
  change (root ++ String "/" q ++ String "/" "index.html")
    with (root ++ (String "/" q ++ String "/" "index.html")).
  rewrite <- (string_app_assoc root).
  rewrite normalize_absolute_file;
    [|apply isAbsolute_app, isAbsolute_app; exact Habs
     |now rewrite endsWith_app by discriminate].
  rewrite segmentsOf_index. cbv zeta.
  destruct (segmentsOf (root ++ String "/" q)) as [|x rest] eqn:HS.
  - exists "". reflexivity.
  - rewrite join_snoc by discriminate.
    destruct (String.eqb_spec
                (JsString.join "/" (x :: rest) ++ String "/" "index.html") "")
      as [E|_].
    + destruct (JsString.join "/" (x :: rest)); discriminate E.
    + exists ("/" ++ JsString.join "/" (x :: rest)).
      cbv iota. symmetry. apply string_app_assoc.
Qed.
